(** * job_matching: the Excel job/candidate matcher (match_Excel.py)

    A shallow embedding of [match_Excel.py]: the composite-key parser
    [parse_composite_key], the matcher
    [find_matching_candidates_for_all_jobs] with its prefix index, and the
    exporter [export_to_single_excel], followed by the properties of the
    specification that concern them.

    Conventions of the embedding.
    - A spreadsheet cell is a [value]: missing ([NA]), text, or a binary64
      number.  Numbers are [spec_float]s of the Standard Library, with
      precision 53 and maximal exponent 1024.
    - The pandas objects the script uses are modelled in [Module pd]: a
      [DataFrame] is a list of column labels and a list of rows, a
      [Series] is a list of labelled values.
    - Python exceptions are the [Raise] results of the [result] monad:
      [ValueError] is what [parse_composite_key] raises and what the
      script's [except ValueError] clauses catch; [KeyError] is raised by
      a lookup of an absent column label and is caught nowhere.
    - Python dictionaries that are only looked up ([candidates_by_prefix])
      are [gmap]s; the [results] dictionary, which is iterated in insertion
      order by the exporter, is an insertion-ordered association list
      ([Module pydict]).  Its keys, the job identifiers, are cells and are
      compared as such; that Python keeps two missing identifiers (NaN)
      apart and takes 0.0 and -0.0 for one key is not modelled, and no
      statement below depends on it.
    - The exporter mutates DataFrame objects in place; they live in a
      [heap] and are named by references. *)

From Stdlib Require Import ZArith Ascii String.
From Stdlib Require Import Floats.SpecFloat.
From stdpp Require Import base option list gmap strings.

Local Open Scope string_scope.
Local Open Scope list_scope.

(** ** Exceptions *)

Inductive value_error : Type :=
  | InvalidKeyFormat      (* "Invalid key ...: Must be exactly 4 parts" *)
  | InvalidCeilingValue.  (* "Invalid salary ...: Must be a number" *)

Inductive exn : Type :=
  | ValueError (why : value_error)
  | KeyError (label : string).

Inductive result (A : Type) : Type :=
  | Ok (a : A)
  | Raise (e : exn).
Arguments Ok {A} a.
Arguments Raise {A} e.

#[global] Instance result_ret : MRet result := @Ok.

#[global] Instance result_bind : MBind result := fun A B k m =>
  match m with
  | Ok a => k a
  | Raise e => Raise e
  end.

(** [try: body except ValueError: handler] *)
Definition except_ValueError {A} (body : result A) (handler : A) : result A :=
  match body with
  | Raise (ValueError _) => Ok handler
  | other => other
  end.

Definition is_Ok {A} (m : result A) : bool :=
  match m with Ok _ => true | Raise _ => false end.

(** ** Python strings: [count], [split], [join] on a one-character separator *)

Module pystr.

Fixpoint count (sep : ascii) (s : string) : nat :=
  match s with
  | EmptyString => 0
  | String c s' => (if Ascii.eqb c sep then 1 else 0) + count sep s'
  end.

(** [s.split(sep)]: never empty, one more part than separators. *)
Fixpoint split (sep : ascii) (s : string) : list string :=
  match s with
  | EmptyString => [EmptyString]
  | String c s' =>
      if Ascii.eqb c sep then EmptyString :: split sep s'
      else match split sep s' with
           | [] => [String c EmptyString]
           | t :: ts => String c t :: ts
           end
  end.

(** [sep.join(parts)] *)
Fixpoint join (sep : ascii) (parts : list string) : string :=
  match parts with
  | [] => EmptyString
  | [p] => p
  | p :: ps => p +:+ String sep (join sep ps)
  end.

End pystr.

(** ** Python [float(str)]

    The literal grammar of [float]: optional surrounding white space, an
    optional sign, then [inf], [infinity] or [nan] in any letter case, or
    a decimal number with an optional fraction and an optional exponent.
    The decimal value is rounded to the nearest binary64 number, ties to
    even.  (Digit grouping with underscores cannot occur in a token of a
    key split at underscores, and is left out; so are digits and white
    space outside ASCII.) *)

Module pyfloat.

Definition prec : Z := 53.
Definition emax : Z := 1024.

Definition is_space (c : ascii) : bool :=
  let n := nat_of_ascii c in
  ((9 <=? n)%nat && (n <=? 13)%nat) || ((28 <=? n)%nat && (n <=? 32)%nat).

Definition digit_of (c : ascii) : option Z :=
  let n := nat_of_ascii c in
  if ((48 <=? n)%nat && (n <=? 57)%nat) then Some (Z.of_nat (n - 48)) else None.

Definition lower (c : ascii) : ascii :=
  let n := nat_of_ascii c in
  if ((65 <=? n)%nat && (n <=? 90)%nat) then ascii_of_nat (n + 32) else c.

Fixpoint lstrip (cs : list ascii) : list ascii :=
  match cs with
  | c :: cs' => if is_space c then lstrip cs' else cs
  | [] => []
  end.

Definition strip (cs : list ascii) : list ascii :=
  rev (lstrip (rev (lstrip cs))).

(** The longest prefix of decimal digits, most significant first. *)
Fixpoint digits (cs : list ascii) : list Z * list ascii :=
  match cs with
  | c :: cs' =>
      match digit_of c with
      | Some d => let '(ds, rest) := digits cs' in (d :: ds, rest)
      | None => ([], cs)
      end
  | [] => ([], [])
  end.

Definition number_of (ds : list Z) : Z :=
  foldl (fun acc d => 10 * acc + d)%Z 0%Z ds.

Definition sign (cs : list ascii) : bool * list ascii :=
  match cs with
  | "-"%char :: cs' => (true, cs')
  | "+"%char :: cs' => (false, cs')
  | _ => (false, cs)
  end.

(** [exponent ::= ("e" | "E") [sign] digitpart], absent: 0. *)
Definition exponent (cs : list ascii) : option Z :=
  match cs with
  | [] => Some 0%Z
  | c :: cs' =>
      if Ascii.eqb (lower c) "e" then
        let '(neg, cs'') := sign cs' in
        match digits cs'' with
        | ((_ :: _) as ds, []) =>
            Some (if neg then (- number_of ds)%Z else number_of ds)
        | _ => None
        end
      else None
  end.

(** The binary64 number nearest to [m * 10^e10] for [m > 0]. *)
Definition round_decimal (neg : bool) (m : Z) (e10 : Z) : spec_float :=
  match m with
  | Zpos p =>
      if (0 <=? e10)%Z then
        binary_round prec emax neg (p * Z.to_pos (10 ^ e10)) 0%Z
      else
        let '(q, e, l) :=
          SFdiv_core_binary prec emax m 0%Z (10 ^ (- e10))%Z 0%Z in
        binary_round_aux prec emax neg q e l
  | _ => S754_zero neg
  end.

Definition of_chars (cs : list ascii) : option spec_float :=
  let '(neg, body) := sign (strip cs) in
  let word := string_of_list_ascii (map lower body) in
  if decide (word = "inf" \/ word = "infinity") then Some (S754_infinity neg)
  else if decide (word = "nan") then Some S754_nan
  else
    let '(ip, r1) := digits body in
    let '(fp, r2) :=
      match r1 with
      | "."%char :: r1' => digits r1'
      | _ => ([], r1)
      end in
    match ip ++ fp with
    | [] => None
    | ds =>
        e ← exponent r2;
        Some (round_decimal neg (number_of ds) (e - Z.of_nat (length fp))%Z)
    end.

(** [float(s)]: [None] stands for the [ValueError] of Python. *)
Definition float (s : string) : option spec_float :=
  of_chars (list_ascii_of_string s).

End pyfloat.

(** ** Cells *)

Inductive value : Type :=
  | NA
  | Text (s : string)
  | Float (f : spec_float).

#[global] Instance spec_float_eq_dec : EqDecision spec_float.
Proof. solve_decision. Defined.

#[global] Instance value_eq_dec : EqDecision value.
Proof. solve_decision. Defined.

(** ** The pandas objects the script uses *)

Module pd.

(** [pd.isna(x)], [pd.notna(x)] *)
Definition isna (x : value) : bool :=
  match x with
  | NA | Float S754_nan => true
  | _ => false
  end.

Definition notna (x : value) : bool := negb (isna x).

(** A row as [iterrows] yields it: labels with their values. *)
Abbreviation Series := (list (string * value)).

Record DataFrame : Type := mkDataFrame {
  columns : list string;
  data : list (list value)
}.

(** [pd.DataFrame()] *)
Definition empty_DataFrame : DataFrame := mkDataFrame [] [].

(** [df.empty]: an axis of length 0 *)
Definition empty (df : DataFrame) : bool :=
  bool_decide (columns df = [] \/ data df = []).

(** [len(df)] *)
Definition len (df : DataFrame) : nat := length (data df).

(** [df.iterrows()], without the index labels *)
Definition iterrows (df : DataFrame) : list Series :=
  map (zip (columns df)) (data df).

(** [row[label]] *)
Fixpoint Series_getitem (row : Series) (label : string) : result value :=
  match row with
  | [] => Raise (KeyError label)
  | (l, v) :: row' =>
      if decide (l = label) then Ok v else Series_getitem row' label
  end.

Fixpoint index_of (label : string) (labels : list string) : option nat :=
  match labels with
  | [] => None
  | l :: labels' =>
      if decide (l = label) then Some 0 else S <$> index_of label labels'
  end.

(** Labels in order of first appearance. *)
Definition add_labels (acc labels : list string) : list string :=
  foldl (fun acc l => if decide (l ∈ acc) then acc else acc ++ [l]) acc labels.

(** The values of [row] under [labels], [NA] where [row] has none. *)
Definition reindex (labels : list string) (row : Series) : list value :=
  map (fun l => match Series_getitem row l with Ok v => v | Raise _ => NA end)
      labels.

(** [pd.DataFrame(rows)] for a list of Series *)
Definition DataFrame_of (rows : list Series) : DataFrame :=
  let labels := foldl add_labels [] (map (map fst) rows) in
  mkDataFrame labels (map (reindex labels) rows).

(** [df[label] = values], in place for an existing label, a new last
    column otherwise *)
Definition setitem (df : DataFrame) (label : string) (values : list value)
  : DataFrame :=
  match index_of label (columns df) with
  | Some i =>
      mkDataFrame (columns df)
                  (zip_with (fun row v => <[i := v]> row) (data df) values)
  | None =>
      mkDataFrame (columns df ++ [label])
                  (zip_with (fun row v => row ++ [v]) (data df) values)
  end.

(** [df[label] = x] for a scalar [x] *)
Definition setitem_scalar (df : DataFrame) (label : string) (x : value)
  : DataFrame :=
  setitem df label (replicate (len df) x).

Fixpoint positions (labels have : list string) : result (list nat) :=
  match labels with
  | [] => Ok []
  | l :: labels' =>
      match index_of l have with
      | Some i => ps ← positions labels' have; Ok (i :: ps)
      | None => Raise (KeyError l)
      end
  end.

(** [df[labels]] for a list of labels: a new frame *)
Definition getitem_cols (df : DataFrame) (labels : list string)
  : result DataFrame :=
  ps ← positions labels (columns df);
  Ok (mkDataFrame labels
        (map (fun row => map (fun i => default NA (row !! i)) ps) (data df))).

(** [df[label]]: the values of one column *)
Definition getitem_col (df : DataFrame) (label : string)
  : result (list value) :=
  match index_of label (columns df) with
  | Some i => Ok (map (fun row => default NA (row !! i)) (data df))
  | None => Raise (KeyError label)
  end.

(** [series.apply(f)] *)
Fixpoint apply (f : value -> result value) (xs : list value)
  : result (list value) :=
  match xs with
  | [] => Ok []
  | x :: xs' => y ← f x; ys ← apply f xs'; Ok (y :: ys)
  end.

(** [pd.concat(dfs, ignore_index=True)] *)
Definition concat (dfs : list DataFrame) : DataFrame :=
  let labels := foldl add_labels [] (map columns dfs) in
  mkDataFrame labels
              (flat_map (fun df => map (reindex labels) (iterrows df)) dfs).

End pd.

(** ** Insertion-ordered dictionaries *)

Module pydict.
Section dict.
Context {K V : Type} `{EqDecision K}.

(** [d[k] = v] *)
Fixpoint set (k : K) (v : V) (d : list (K * V)) : list (K * V) :=
  match d with
  | [] => [(k, v)]
  | (k', v') :: d' =>
      if decide (k' = k) then (k', v) :: d' else (k', v') :: set k v d'
  end.

(** [d.get(k)] *)
Fixpoint get (k : K) (d : list (K * V)) : option V :=
  match d with
  | [] => None
  | (k', v') :: d' => if decide (k' = k) then Some v' else get k d'
  end.

Definition keys (d : list (K * V)) : list K := map fst d.

(** [for k, v in entries: d[k] = v] *)
Definition update (entries : list (K * V)) (d : list (K * V))
  : list (K * V) :=
  foldl (fun d '(k, v) => set k v d) d entries.
End dict.
End pydict.

(** ** Configuration *)

Module JOBS_COLUMNS.
Definition job_id_col : string := "job_id".
Definition composite_key_col : string := "composit_key".
End JOBS_COLUMNS.

Module CANDIDATES_COLUMNS.
Definition candidate_id_col : string := "candidate_id".
Definition composite_key_col : string := "composit_key".
End CANDIDATES_COLUMNS.

(** ** [parse_composite_key] *)

(** A missing cell satisfies [pd.isna]; the text [str] gives for a number
    has no underscore; both take the first [raise].  For text, [count] is 0
    when there is no underscore, so the last disjunct of the guard covers
    the second. *)
Definition parse_composite_key (key_str : value)
  : result (string * spec_float * list string) :=
  match key_str with
  | NA | Float _ => Raise (ValueError InvalidKeyFormat)
  | Text s =>
      if decide (pystr.count "_" s ≠ 3) then Raise (ValueError InvalidKeyFormat)
      else
        let parts := pystr.split "_" s in
        let prefix := pystr.join "_" (take 3 parts) in
        match pyfloat.float (default "" (parts !! 3)) with
        | Some salary => Ok (prefix, salary, parts)
        | None => Raise (ValueError InvalidCeilingValue)
        end
  end.

(** ** [find_matching_candidates_for_all_jobs] *)

(** The entries of [candidates_by_prefix] *)
Record cand_data : Type := mk_cand_data {
  candidate_id : value;
  salary : spec_float;
  full_row : pd.Series
}.

(** The entries of [results] *)
Record match_result : Type := mk_match_result {
  job_key : value;
  target_salary : spec_float;
  matches : pd.DataFrame;
  count : nat
}.

(** [for x in xs: state = body(state, x)], stopping at an exception *)
Fixpoint for_each {S A} (body : S -> A -> result S) (xs : list A) (s : S)
  : result S :=
  match xs with
  | [] => Ok s
  | x :: xs' => s' ← body s x; for_each body xs' s'
  end.

(** The body of the first loop (lines 67-81). *)
Definition index_candidate
    (candidates_by_prefix : gmap string (list cand_data)) (row : pd.Series)
  : result (gmap string (list cand_data)) :=
  cand_key ← pd.Series_getitem row CANDIDATES_COLUMNS.composite_key_col;
  except_ValueError
    ('(prefix, cand_salary, _) ← parse_composite_key cand_key;
     let candidates_by_prefix :=
       match candidates_by_prefix !! prefix with
       | None => <[prefix := []]> candidates_by_prefix
       | Some _ => candidates_by_prefix
       end in
     cand_id ← pd.Series_getitem row CANDIDATES_COLUMNS.candidate_id_col;
     Ok (<[prefix := default [] (candidates_by_prefix !! prefix)
                      ++ [mk_cand_data cand_id cand_salary row]]>
           candidates_by_prefix))
    candidates_by_prefix.

(** The inner loop (lines 96-101). *)
Definition select_matches (candidate_list : list cand_data)
    (target_salary : spec_float) : list pd.Series :=
  foldl (fun matches c =>
           if SFleb (salary c) target_salary then matches ++ [full_row c]
           else matches)
        [] candidate_list.

(** The body of the second loop (lines 86-133). *)
Definition match_job
    (candidates_by_prefix : gmap string (list cand_data))
    (results : list (value * match_result)) (job_row : pd.Series)
  : result (list (value * match_result)) :=
  job_id ← pd.Series_getitem job_row JOBS_COLUMNS.job_id_col;
  job_key ← pd.Series_getitem job_row JOBS_COLUMNS.composite_key_col;
  except_ValueError
    ('(prefix, target_salary, _) ← parse_composite_key job_key;
     match candidates_by_prefix !! prefix with
     | Some candidate_list =>
         match select_matches candidate_list target_salary with
         | (_ :: _) as matches =>
             let match_df := pd.DataFrame_of matches in
             Ok (pydict.set job_id
                   (mk_match_result job_key target_salary match_df
                                    (pd.len match_df))
                   results)
         | [] =>
             Ok (pydict.set job_id
                   (mk_match_result job_key target_salary
                                    pd.empty_DataFrame 0)
                   results)
         end
     | None =>
         '(_, target_salary, _) ← parse_composite_key job_key;
         Ok (pydict.set job_id
               (mk_match_result job_key target_salary pd.empty_DataFrame 0)
               results)
     end)
    results.

Definition build_candidates_by_prefix (candidates_df : pd.DataFrame)
  : result (gmap string (list cand_data)) :=
  for_each index_candidate (pd.iterrows candidates_df) ∅.

Definition find_matching_candidates_for_all_jobs
    (jobs_df candidates_df : pd.DataFrame)
  : result (list (value * match_result)) :=
  candidates_by_prefix ← build_candidates_by_prefix candidates_df;
  for_each (match_job candidates_by_prefix) (pd.iterrows jobs_df) [].

(** ** [export_to_single_excel] *)

(** What the file system answers: whether [OUTPUT_DIR] exists, whether
    [os.makedirs] succeeds when it does not, whether [to_excel] succeeds. *)
Record filesystem : Type := mk_filesystem {
  dir_exists : bool;
  makedirs_ok : bool;
  to_excel_ok : bool
}.

(** DataFrame objects are mutable: a name or a list element holds a
    reference into the heap of objects. *)
Module heap.
Abbreviation ref := nat.
Abbreviation t := (list pd.DataFrame).

Definition new (df : pd.DataFrame) (h : t) : ref * t := (length h, h ++ [df]).

Definition get (h : t) (r : ref) : pd.DataFrame :=
  default pd.empty_DataFrame (h !! r).

(** an update in place of the object [r] names *)
Definition update (r : ref) (f : pd.DataFrame -> pd.DataFrame) (h : t) : t :=
  alter f r h.
End heap.

Record export_state : Type := mk_export_state {
  objects : heap.t;
  all_matches_dfs : list heap.ref;
  total_matches : nat
}.

Definition extracted_salary_col : string := "extracted_salary".

Definition preview_cols : list string :=
  [JOBS_COLUMNS.job_id_col; CANDIDATES_COLUMNS.candidate_id_col;
   CANDIDATES_COLUMNS.composite_key_col; extracted_salary_col].

(** [lambda x: parse_composite_key(x)[1] if pd.notna(x) else None] *)
Definition extract_salary (x : value) : result value :=
  if pd.notna x then
    '(_, salary, _) ← parse_composite_key x; Ok (Float salary)
  else Ok NA.

(** The body of the loop over [results.items()] (lines 150-173).  The name
    [match_df_with_job] is bound three times: to the copy, to the frame
    [match_df_with_job[cols]] creates, and that last object is the one
    appended to [all_matches_dfs] and the one line 167 assigns
    [extracted_salary] in. *)
Definition export_job (st : export_state) (item : value * match_result)
  : result export_state :=
  let '(job_id, data) := item in
  let match_df := matches data in
  if pd.empty match_df then Ok st
  else
    let '(match_df_with_job, h) := heap.new match_df (objects st) in
    let h :=
      heap.update match_df_with_job
        (fun df => pd.setitem_scalar df JOBS_COLUMNS.job_id_col job_id) h in
    let cols :=
      JOBS_COLUMNS.job_id_col
      :: List.filter (fun col => negb (String.eqb col JOBS_COLUMNS.job_id_col))
           (pd.columns (heap.get h match_df_with_job)) in
    reordered ← pd.getitem_cols (heap.get h match_df_with_job) cols;
    let '(match_df_with_job, h) := heap.new reordered h in
    let all_matches_dfs := all_matches_dfs st ++ [match_df_with_job] in
    let total_matches := total_matches st + pd.len match_df in
    keys ← pd.getitem_col (heap.get h match_df_with_job)
                          CANDIDATES_COLUMNS.composite_key_col;
    extracted ← pd.apply extract_salary keys;
    let h :=
      heap.update match_df_with_job
        (fun df => pd.setitem df extracted_salary_col extracted) h in
    _ ← pd.getitem_cols (heap.get h match_df_with_job) preview_cols;
    Ok (mk_export_state h all_matches_dfs total_matches).

(** The result is the table [to_excel] wrote, if any, and the returned
    count. *)
Definition export_to_single_excel (fs : filesystem)
    (results : list (value * match_result))
  : result (option pd.DataFrame * nat) :=
  if negb (dir_exists fs) && negb (makedirs_ok fs) then Ok (None, 0)
  else
    st ← for_each export_job results (mk_export_state [] [] 0);
    match all_matches_dfs st with
    | _ :: _ =>
        let combined_df :=
          pd.concat (map (heap.get (objects st)) (all_matches_dfs st)) in
        if to_excel_ok fs then Ok (Some combined_df, total_matches st)
        else Ok (None, 0)
    | [] => Ok (None, 0)
    end.

(** ** [main]: the summary report (lines 225-227) *)

Inductive status : Type := HAS_MATCHES | NO_MATCHES.

Definition summary_report (results : list (value * match_result))
  : list (value * status * nat * spec_float) :=
  map (fun '(job_id, data) =>
         (job_id, if (0 <? count data)%nat then HAS_MATCHES else NO_MATCHES,
          count data, target_salary data))
      results.

(** ** [load_excel_data] and [main] *)

(** The two files as [pd.read_excel] gives them, [None] for a file whose
    reading raises; both [except] clauses return [None, None]. *)
Definition load_excel_data (jobs_file candidates_file : option pd.DataFrame)
  : option pd.DataFrame * option pd.DataFrame :=
  match jobs_file with
  | Some jobs_df =>
      match candidates_file with
      | Some candidates_df => (Some jobs_df, Some candidates_df)
      | None => (None, None)
      end
  | None => (None, None)
  end.

(** What a run of [main] leaves: nothing when a file could not be loaded,
    nothing when [results] is empty, else the table written (if any), the
    lines of the summary report and the total it prints. *)
Inductive run : Type :=
  | Not_loaded
  | No_results
  | Completed (file : option pd.DataFrame)
              (report : list (value * status * nat * spec_float))
              (total_exported : nat).

Definition main (jobs_file candidates_file : option pd.DataFrame)
    (fs : filesystem) : result run :=
  match load_excel_data jobs_file candidates_file with
  | (Some jobs_df, Some candidates_df) =>
      results ← find_matching_candidates_for_all_jobs jobs_df candidates_df;
      match results with
      | [] => Ok No_results
      | _ :: _ =>
          '(file, total_exported) ← export_to_single_excel fs results;
          Ok (Completed file (summary_report results) total_exported)
      end
  | _ => Ok Not_loaded
  end.

(** ** Vocabulary of the statements *)

(** An input table as [read_excel] delivers it: distinct column labels,
    the columns the script reads among them, one cell per column in every
    row. *)
Definition wf_table (required : list string) (df : pd.DataFrame) : Prop :=
  NoDup (pd.columns df) /\
  Forall (fun l => l ∈ pd.columns df) required /\
  Forall (fun row => length row = length (pd.columns df)) (pd.data df).

Definition candidate_columns : list string :=
  [CANDIDATES_COLUMNS.candidate_id_col; CANDIDATES_COLUMNS.composite_key_col].

Definition job_columns : list string :=
  [JOBS_COLUMNS.job_id_col; JOBS_COLUMNS.composite_key_col].

(** The cell of a row under a label ([NA] when the row has none). *)
Definition cell (row : pd.Series) (label : string) : value :=
  match pd.Series_getitem row label with
  | Ok v => v
  | Raise _ => NA
  end.

(** Prefix and ceiling of the composite key of a row, when it parses. *)
Definition parsed_key (row : pd.Series) : option (string * spec_float) :=
  match parse_composite_key (cell row CANDIDATES_COLUMNS.composite_key_col) with
  | Ok (prefix, ceiling, _) => Some (prefix, ceiling)
  | Raise _ => None
  end.

Definition has_valid_key (row : pd.Series) : bool :=
  bool_decide (is_Some (parsed_key row)).

(** The index entry of a candidate row with a valid key. *)
Definition entry_of (row : pd.Series) : option (string * cand_data) :=
  '(prefix, ceiling) ← parsed_key row;
  Some (prefix,
        mk_cand_data (cell row CANDIDATES_COLUMNS.candidate_id_col) ceiling row).

(** The valid candidates of a prefix, in table order. *)
Definition bucket_of (prefix : string) (rows : list pd.Series)
  : list cand_data :=
  omap (fun row =>
          '(p, c) ← entry_of row;
          if decide (p = prefix) then Some c else None)
       rows.

(** A candidate row qualifies for a job of prefix [prefix] and ceiling
    [target]: same prefix, ceiling at most [target]. *)
Definition qualifies (prefix : string) (target : spec_float)
    (row : pd.Series) : bool :=
  match parsed_key row with
  | Some (p, ceiling) => bool_decide (p = prefix) && SFleb ceiling target
  | None => false
  end.

(** The row has a cell under each of the labels. *)
Definition readable (labels : list string) (row : pd.Series) : Prop :=
  Forall (fun l => exists v, pd.Series_getitem row l = Ok v) labels.

(** A bucket extended by the candidates a further part of the table gives
    it; none is created for nothing. *)
Definition extend (o : option (list cand_data)) (more : list cand_data)
  : option (list cand_data) :=
  match o, more with
  | None, [] => None
  | _, _ => Some (default [] o ++ more)
  end.

(** The candidate rows that qualify, in table order. *)
Definition matching_rows (candidates_df : pd.DataFrame) (prefix : string)
    (target : spec_float) : list (list value) :=
  List.filter
    (fun row => qualifies prefix target (zip (pd.columns candidates_df) row))
    (pd.data candidates_df).

(** The entry of [results] for a job of key [key], which parses to
    [prefix] and [target]. *)
Definition result_of (candidates_df : pd.DataFrame) (key : value)
    (prefix : string) (target : spec_float) : match_result :=
  let rows := matching_rows candidates_df prefix target in
  mk_match_result key target
    (match rows with
     | [] => pd.empty_DataFrame
     | _ :: _ => pd.mkDataFrame (pd.columns candidates_df) rows
     end)
    (length rows).

(** What a job record contributes to [results], if anything. *)
Definition job_entry (candidates_df : pd.DataFrame) (job_row : pd.Series)
  : option (value * match_result) :=
  '(prefix, target) ← parsed_key job_row;
  Some (cell job_row JOBS_COLUMNS.job_id_col,
        result_of candidates_df (cell job_row JOBS_COLUMNS.composite_key_col)
                  prefix target).

(** The table without the records whose composite key does not parse. *)
Definition drop_malformed (df : pd.DataFrame) : pd.DataFrame :=
  pd.mkDataFrame (pd.columns df)
    (List.filter (fun row => has_valid_key (zip (pd.columns df) row))
                 (pd.data df)).


(** The ceiling the key cell of an exported row parses to. *)
Definition ceiling_cell (labels : list string) (row : list value) : value :=
  match parsed_key (zip labels row) with
  | Some (_, ceiling) => Float ceiling
  | None => NA
  end.

(** Rows with one cell per label. *)
Definition full_rows (labels : list string) (rows : list (list value)) : Prop :=
  Forall (fun row => length row = length labels) rows.

(** A table of matches as the matcher stores it for a candidates table
    with the labels [labels]: full rows with a valid key, at least one. *)
Definition matches_of (labels : list string) (df : pd.DataFrame) : Prop :=
  pd.columns df = labels /\ pd.data df <> [] /\
  Forall (fun row => length row = length labels /\
                     has_valid_key (zip labels row) = true)
         (pd.data df).

(** The entries the matcher makes: no matches, or matches over [labels]. *)
Definition matcher_made (labels : list string)
    (results : list (value * match_result)) : Prop :=
  Forall (fun item => pd.empty (matches item.2) = true \/
                      matches_of labels (matches item.2))
         results.

(** The rows the exporter makes of the matches of a job: the job
    identifier, the cells of the candidate, the ceiling of its key. *)
Definition exported_rows (job_id : value) (match_df : pd.DataFrame)
  : list (list value) :=
  map (fun row => job_id :: row ++ [ceiling_cell (pd.columns match_df) row])
      (pd.data match_df).

Definition exported_columns (labels : list string) : list string :=
  JOBS_COLUMNS.job_id_col :: labels ++ [extracted_salary_col].

(** The frame the exporter appends to [all_matches_dfs] for a job, as it
    is when [pd.concat] reads it. *)
Definition exported_frame (job_id : value) (match_df : pd.DataFrame)
  : pd.DataFrame :=
  pd.mkDataFrame (exported_columns (pd.columns match_df))
                 (exported_rows job_id match_df).

Definition has_matches (item : value * match_result) : bool :=
  negb (pd.empty (matches item.2)).

(** All rows of the report, job by job in the order of [results]. *)
Definition report_rows (results : list (value * match_result))
  : list (list value) :=
  flat_map (fun item => exported_rows item.1 (matches item.2))
           (List.filter has_matches results).

(** The labels of a candidates table other than [job_id]. *)
Definition other_labels (labels : list string) : list string :=
  List.filter (fun col => negb (String.eqb col JOBS_COLUMNS.job_id_col)) labels.

(** The labels of the report whatever the labels of the candidates table:
    [job_id], the other labels, and [extracted_salary] unless it is one of
    them. *)
Definition report_labels (labels : list string) : list string :=
  JOBS_COLUMNS.job_id_col
  :: (if decide (extracted_salary_col ∈ other_labels labels)
      then other_labels labels
      else other_labels labels ++ [extracted_salary_col]).

(** The cell of the report under a label, for a job and a candidate row. *)
Definition report_cell (labels : list string) (job_id : value)
    (candidate : list value) (l : string) : value :=
  if decide (l = extracted_salary_col) then ceiling_cell labels candidate
  else if decide (l = JOBS_COLUMNS.job_id_col) then job_id
  else cell (zip labels candidate) l.

Definition report_frame (labels : list string) (job_id : value)
    (match_df : pd.DataFrame) : pd.DataFrame :=
  pd.mkDataFrame (report_labels labels)
    (map (fun candidate =>
            map (report_cell labels job_id candidate) (report_labels labels))
         (pd.data match_df)).


(** What the matcher reads of a job record: identifier and key. *)
Definition job_cells (job_row : pd.Series) : value * value :=
  (cell job_row JOBS_COLUMNS.job_id_col,
   cell job_row JOBS_COLUMNS.composite_key_col).

(** ** Example tables *)

Module example.

(** The end-to-end example of the specification. *)
Definition candidates : pd.DataFrame :=
  pd.mkDataFrame ["candidate_id"; "composit_key"]
    [[Text "1"; Text "12_3_4_2.0"];
     [Text "2"; Text "12_3_4_3.5"];
     [Text "3"; Text "99_9_9_1.0"]].

Definition jobs : pd.DataFrame :=
  pd.mkDataFrame ["job_id"; "composit_key"] [[Text "J1"; Text "12_3_4_3.0"]].

(** Two malformed candidates, a malformed job, jobs that share a prefix,
    a job without bucket. *)
Definition more_candidates : pd.DataFrame :=
  pd.mkDataFrame ["candidate_id"; "composit_key"]
    [[Text "1"; Text "12_3_4_2.0"];
     [Text "4"; Text "12_3_4"];
     [Text "2"; Text "12_3_4_3.5"];
     [Text "5"; Text "12_3_4_x"];
     [Text "3"; Text "99_9_9_1.0"]].

Definition more_jobs : pd.DataFrame :=
  pd.mkDataFrame ["job_id"; "composit_key"]
    [[Text "J1"; Text "12_3_4_3.0"];
     [Text "J2"; Text "7_7_7_1"];
     [Text "J3"; Text "bad"];
     [Text "J4"; Text "12_3_4_3.5"]].


(** A candidates table with a column of its own named [job_id]. *)
Definition candidates_with_job_id : pd.DataFrame :=
  pd.mkDataFrame ["candidate_id"; "job_id"; "composit_key"]
    [[Text "1"; Text "old"; Text "12_3_4_2.0"]].



(** The jobs of [more_jobs] with a further column. *)
Definition titled_jobs : pd.DataFrame :=
  pd.mkDataFrame ["job_id"; "title"; "composit_key"]
    [[Text "J1"; Text "clerk"; Text "12_3_4_3.0"];
     [Text "J2"; NA; Text "7_7_7_1"];
     [Text "J3"; Text "teller"; Text "bad"];
     [Text "J4"; Text "agent"; Text "12_3_4_3.5"]].



(** A jobs table without the column [composit_key]. *)
Definition keyless_jobs : pd.DataFrame :=
  pd.mkDataFrame ["job_id"; "key"] [[Text "J1"; Text "12_3_4_3.0"]].

Definition two : spec_float := S754_finite false 4503599627370496 (-51).
Definition three : spec_float := S754_finite false 6755399441055744 (-51).
Definition three_and_a_half : spec_float :=
  S754_finite false 7881299347898368 (-51).
Definition one : spec_float := S754_finite false 4503599627370496 (-52).

Definition disk : filesystem := mk_filesystem true true true.

End example.

(** ** Strings *)

Module pystr_facts.
Import pystr.



Lemma count_sep_cons sep s : count sep (String sep s) = S (count sep s).
Proof. simpl. by rewrite Ascii.eqb_refl. Qed.






End pystr_facts.

(** ** The composite-key parser *)

Section parse_facts.
Import pystr pystr_facts.

Lemma parse_raises_ValueError key_str e :
  parse_composite_key key_str = Raise e -> exists why, e = ValueError why.
Proof.
  unfold parse_composite_key. intros H.
  destruct key_str as [|s|f]; [naive_solver| |naive_solver].
  case_decide; [naive_solver|].
  destruct (pyfloat.float _); naive_solver.
Qed.





End parse_facts.

(** ** Comparison of binary64 numbers *)

Section float_order.

Local Ltac compare_cases :=
  repeat match goal with
    | |- context [Z.compare ?a ?b] => destruct (Z.compare_spec a b)
    | H : context [Z.compare ?a ?b] |- _ => destruct (Z.compare_spec a b)
    | |- context [Pos.compare_cont Eq ?a ?b] =>
        change (Pos.compare_cont Eq a b) with (Pos.compare a b);
        destruct (Pos.compare_spec a b)
    | H : context [Pos.compare_cont Eq ?a ?b] |- _ =>
        change (Pos.compare_cont Eq a b) with (Pos.compare a b) in H;
        destruct (Pos.compare_spec a b)
    end;
  simpl in *; try done; try lia.

Lemma SFleb_trans a b c :
  SFleb a b = true -> SFleb b c = true -> SFleb a c = true.
Proof.
  unfold SFleb, SFcompare.
  destruct a as [[]|[]| |[] ma ea], b as [[]|[]| |[] mb eb],
           c as [[]|[]| |[] mc ec]; try done; compare_cases.
Qed.


Lemma SFleb_refl a : a <> S754_nan -> SFleb a a = true.
Proof.
  unfold SFleb, SFcompare. destruct a as [[]|[]| |[] m e]; try done;
    intros _; rewrite Z.compare_refl;
    change (Pos.compare_cont Eq m m) with (Pos.compare m m);
    by rewrite Pos.compare_refl.
Qed.

End float_order.

(** ** Rows and frames *)

Section frame_facts.
Import pd.

Implicit Types (cols labels : list string) (row : list value).

Lemma index_of_None l cols : index_of l cols = None <-> l ∉ cols.
Proof.
  induction cols as [|c cols IH]; simpl.
  - split; [intros _; apply not_elem_of_nil|done].
  - rewrite not_elem_of_cons. case_decide as Hc.
    + split; [done|]. intros [? _]. congruence.
    + rewrite fmap_None, IH. split; [|tauto]. intros ?. split; [congruence|done].
Qed.

Lemma index_of_Some l cols i :
  index_of l cols = Some i -> cols !! i = Some l /\ i < length cols.
Proof.
  revert i. induction cols as [|c cols IH]; simpl; [done|]. intros i.
  case_decide; subst.
  - intros [= <-]. split; [done|lia].
  - destruct (index_of l cols) as [j|]; [|done]. intros [= <-].
    destruct (IH j eq_refl). split; [done|lia].
Qed.

Lemma index_of_elem l cols : l ∈ cols -> is_Some (index_of l cols).
Proof.
  intros H. destruct (index_of l cols) eqn:E; [by eexists|].
  by apply index_of_None in E.
Qed.

Lemma index_of_app_l l cols more i :
  index_of l cols = Some i -> index_of l (cols ++ more) = Some i.
Proof.
  revert i. induction cols as [|c cols IH]; simpl; [done|]. intros i.
  case_decide; [done|].
  destruct (index_of l cols) as [j|]; [|done]. intros [= <-].
  by rewrite (IH j).
Qed.

Lemma index_of_app_r l cols :
  l ∉ cols -> index_of l (cols ++ [l]) = Some (length cols).
Proof.
  induction cols as [|c cols IH]; simpl.
  - intros _. by rewrite decide_True.
  - rewrite not_elem_of_cons. intros [? ?].
    rewrite decide_False by done. by rewrite IH.
Qed.

(** [row[label]] is the cell at the position of the label. *)
Lemma getitem_zip cols row l i :
  length row = length cols -> index_of l cols = Some i ->
  exists v, row !! i = Some v /\ Series_getitem (zip cols row) l = Ok v.
Proof.
  revert row i. induction cols as [|c cols IH]; intros [|v row] i Hlen;
    simpl in *; try done.
  case_decide; subst.
  - intros [= <-]. by exists v.
  - destruct (index_of l cols) as [j|] eqn:E; [|done]. intros [= <-].
    apply (IH row j); [lia|done].
Qed.

Lemma getitem_zip_missing cols row l :
  l ∉ cols -> Series_getitem (zip cols row) l = Raise (KeyError l).
Proof.
  revert row. induction cols as [|c cols IH]; intros [|v row]; simpl;
    try done.
  rewrite not_elem_of_cons. intros [? ?]. rewrite decide_False by done. auto.
Qed.

Lemma getitem_zip_elem cols row l :
  length row = length cols -> l ∈ cols ->
  exists v, Series_getitem (zip cols row) l = Ok v.
Proof.
  intros Hlen [i Hi]%index_of_elem.
  destruct (getitem_zip cols row l i Hlen Hi) as (v & _ & ?). by exists v.
Qed.

Lemma cell_zip cols row l i :
  length row = length cols -> index_of l cols = Some i ->
  cell (zip cols row) l = default NA (row !! i).
Proof.
  intros Hlen Hi. destruct (getitem_zip cols row l i Hlen Hi) as (v & -> & Hv).
  unfold cell. by rewrite Hv.
Qed.

Lemma getitem_cell (s : Series) l v : Series_getitem s l = Ok v -> cell s l = v.
Proof. unfold cell. by intros ->. Qed.

Lemma reindex_zip cols row :
  NoDup cols -> length row = length cols -> reindex cols (zip cols row) = row.
Proof.
  unfold reindex. revert row.
  induction cols as [|c cols IH]; intros [|v row] Hnd Hlen; simpl in *;
    try done.
  apply NoDup_cons in Hnd as [Hc Hnd]. rewrite decide_True by done. f_equal.
  etrans; [|apply (IH row Hnd); lia].
  apply map_ext_in. intros l Hl%list_elem_of_In.
  rewrite decide_False; [done|]. by intros ->.
Qed.

Lemma add_labels_known acc labels :
  Forall (fun l => l ∈ acc) labels -> add_labels acc labels = acc.
Proof.
  unfold add_labels. induction 1 as [|l labels Hl _ IH]; simpl; [done|].
  by rewrite decide_True.
Qed.

Lemma add_labels_fresh acc labels :
  NoDup (acc ++ labels) -> add_labels acc labels = acc ++ labels.
Proof.
  unfold add_labels. revert acc.
  induction labels as [|l labels IH]; intros acc Hnd; simpl.
  - by rewrite app_nil_r.
  - rewrite decide_False.
    + rewrite IH; by rewrite <- app_assoc.
    + apply NoDup_app in Hnd as (_ & Hnd & _). intros Hl.
      apply (Hnd l Hl). by left.
Qed.

(** Frames over one list of labels merge to that list. *)
Lemma merge_same_labels cols (ls : list (list string)) :
  NoDup cols -> ls <> [] -> Forall (fun l => l = cols) ls ->
  foldl add_labels [] ls = cols.
Proof.
  intros Hnd Hne Hall.
  assert (forall ls', Forall (fun l => l = cols) ls' ->
                      foldl add_labels cols ls' = cols) as Hsame.
  { induction 1 as [|l ls' Hl _ IH]; simpl; [done|]. subst l.
    rewrite add_labels_known; [done|]. by apply Forall_forall. }
  destruct ls as [|l ls]; [done|]. apply Forall_cons in Hall as [-> Hall].
  simpl. rewrite (add_labels_fresh [] cols) by done. by apply Hsame.
Qed.

Lemma DataFrame_of_rows cols (rows : list (list value)) :
  NoDup cols -> rows <> [] ->
  Forall (fun row => length row = length cols) rows ->
  DataFrame_of (map (zip cols) rows) = mkDataFrame cols rows.
Proof.
  intros Hnd Hne Hlen. unfold DataFrame_of.
  rewrite (merge_same_labels cols).
  - f_equal. rewrite map_map. rewrite <- (map_id rows) at 2.
    apply map_ext_in. intros row Hrow%list_elem_of_In.
    apply reindex_zip; [done|]. by eapply Forall_forall in Hlen.
  - done.
  - by destruct rows.
  - rewrite !Forall_map. eapply Forall_impl; [exact Hlen|]. simpl.
    intros row Hrow. apply fst_zip. lia.
Qed.

Lemma concat_same_labels cols (dfs : list DataFrame) :
  NoDup cols -> dfs <> [] ->
  Forall (fun df => columns df = cols /\
                    Forall (fun row => length row = length cols) (data df))
         dfs ->
  concat dfs = mkDataFrame cols (flat_map data dfs).
Proof.
  intros Hnd Hne Hall. unfold concat.
  rewrite (merge_same_labels cols); [|done|by destruct dfs|].
  - f_equal. induction Hall as [|df dfs [Hc Hlen] _ IH]; simpl; [done|].
    destruct dfs as [|df' dfs'].
    + simpl. rewrite !app_nil_r. unfold iterrows. rewrite map_map, Hc.
      rewrite <- (map_id (data df)) at 2. apply map_ext_in.
      intros row Hrow%list_elem_of_In. apply reindex_zip; [done|].
      by eapply Forall_forall in Hlen.
    + rewrite IH by done. f_equal. unfold iterrows. rewrite map_map, Hc.
      rewrite <- (map_id (data df)) at 2. apply map_ext_in.
      intros row Hrow%list_elem_of_In. apply reindex_zip; [done|].
      by eapply Forall_forall in Hlen.
  - rewrite Forall_map. eapply Forall_impl; [exact Hall|]. by intros df [? _].
Qed.

End frame_facts.

(** ** Loops and dictionaries *)

Section loop_facts.
Context {S A : Type}.
Implicit Types (body : S -> A -> result S).

Lemma for_each_app body xs ys s :
  for_each body (xs ++ ys) s = s' ← for_each body xs s; for_each body ys s'.
Proof.
  revert s. induction xs as [|x xs IH]; intros s; simpl; [done|].
  destruct (body s x); simpl; [apply IH|done].
Qed.

(** A loop whose body never raises is a left fold. *)
Lemma for_each_total body (step : S -> A -> S) xs s :
  Forall (fun x => forall s, body s x = Ok (step s x)) xs ->
  for_each body xs s = Ok (foldl step s xs).
Proof.
  intros H. revert s. induction H as [|x xs Hx _ IH]; intros s; simpl; [done|].
  rewrite Hx. simpl. apply IH.
Qed.

(** An invariant of the body is an invariant of the loop. *)
Lemma for_each_invariant (P : S -> Prop) body xs s s' :
  (forall s x s', P s -> body s x = Ok s' -> P s') ->
  P s -> for_each body xs s = Ok s' -> P s'.
Proof.
  intros Hstep. revert s. induction xs as [|x xs IH]; intros s Hs; simpl.
  - by intros [= <-].
  - destruct (body s x) as [s1|] eqn:E; simpl; [|done]. eauto.
Qed.
End loop_facts.

Section pydict_facts.
Context {K V : Type} `{EqDecision K}.
Implicit Types (d : list (K * V)).

Lemma keys_set_known k v d :
  k ∈ pydict.keys d -> pydict.keys (pydict.set k v d) = pydict.keys d.
Proof.
  unfold pydict.keys. induction d as [|[k' v'] d IH]; simpl.
  - by intros ?%elem_of_nil.
  - destruct (decide (k' = k)) as [->|Hne]; simpl; [done|].
    intros [?|?]%elem_of_cons; [congruence|]. by rewrite IH.
Qed.

Lemma keys_set_fresh k v d :
  k ∉ pydict.keys d -> pydict.keys (pydict.set k v d) = pydict.keys d ++ [k].
Proof.
  unfold pydict.keys. induction d as [|[k' v'] d IH]; simpl; [done|].
  rewrite not_elem_of_cons. intros [? ?]. rewrite decide_False by done.
  simpl. by rewrite IH.
Qed.



Lemma get_set k v d : pydict.get k (pydict.set k v d) = Some v.
Proof.
  induction d as [|[k' v'] d IH]; simpl.
  - by rewrite decide_True.
  - destruct (decide (k' = k)) as [->|Hne]; simpl.
    + by rewrite decide_True.
    + by rewrite decide_False.
Qed.

Lemma get_set_ne k k' v d :
  k <> k' -> pydict.get k' (pydict.set k v d) = pydict.get k' d.
Proof.
  intros Hne. induction d as [|[k0 v0] d IH]; simpl.
  - by rewrite decide_False.
  - destruct (decide (k0 = k)) as [->|Hne0]; simpl.
    + by rewrite !decide_False.
    + by rewrite IH.
Qed.

Lemma elem_of_set k v d e :
  e ∈ pydict.set k v d -> e.2 = v \/ e ∈ d.
Proof.
  induction d as [|[k' v'] d IH]; simpl.
  - intros ->%list_elem_of_singleton. by left.
  - destruct (decide (k' = k)) as [->|Hne].
    + intros [->|?]%elem_of_cons; [by left|]. right. by right.
    + intros [->|?]%elem_of_cons; [right; by left|].
      destruct IH as [?|?]; [done|by left|]. right. by right.
Qed.

Lemma elem_of_set_entry k v d e :
  e ∈ pydict.set k v d -> (e.2 = v /\ e.1 = k) \/ e ∈ d.
Proof.
  induction d as [|[k' v'] d IH]; simpl.
  - intros ->%list_elem_of_singleton. by left.
  - destruct (decide (k' = k)) as [->|Hne].
    + intros [->|?]%elem_of_cons; [by left|]. right. by right.
    + intros [->|?]%elem_of_cons; [right; by left|].
      destruct IH as [?|?]; [done|by left|]. right. by right.
Qed.

Lemma Forall_set (P : K * V -> Prop) k v d :
  (forall k', P (k', v)) -> Forall P d -> Forall P (pydict.set k v d).
Proof.
  intros Hv Hd. apply Forall_forall. intros [k' v'] He.
  apply elem_of_set in He as [Heq|He]; simpl in *.
  - subst. apply Hv.
  - by eapply Forall_forall in Hd.
Qed.


(** Every final entry was assigned by the loop or was there before. *)
Lemma elem_of_update entries d e :
  e ∈ pydict.update entries d -> e ∈ entries \/ e ∈ d.
Proof.
  revert d. induction entries as [|[k v] es IH]; intros d; simpl.
  - by right.
  - intros [?|He]%IH; [left; by right|].
    apply elem_of_set_entry in He as [[? ?]|?]; [|by right].
    left. destruct e; simpl in *; subst. by left.
Qed.

Lemma keys_update entries d k :
  k ∈ pydict.keys (pydict.update entries d) <->
  k ∈ pydict.keys entries \/ k ∈ pydict.keys d.
Proof.
  revert d. induction entries as [|[k' v] es IH]; intros d; simpl.
  - unfold pydict.keys at 2. simpl. rewrite elem_of_nil. tauto.
  - rewrite IH.
    assert (k ∈ pydict.keys (pydict.set k' v d) <-> k = k' \/ k ∈ pydict.keys d)
      as ->.
    { destruct (decide (k' ∈ pydict.keys d)).
      - rewrite keys_set_known by done. split; [tauto|].
        intros [->|?]; done.
      - rewrite keys_set_fresh, elem_of_app, list_elem_of_singleton by done.
        tauto. }
    change (pydict.keys ((k', v) :: es)) with (k' :: pydict.keys es).
    rewrite elem_of_cons. tauto.
Qed.


(** The last assignment to a key is the one that stays. *)
Lemma get_update_last entries k v later d :
  k ∉ pydict.keys later ->
  pydict.get k (pydict.update (entries ++ (k, v) :: later) d) = Some v.
Proof.
  intros Hk. unfold pydict.update. rewrite foldl_app. simpl.
  generalize (foldl (fun d '(k, v) => pydict.set k v d) d entries). intros d'.
  assert (pydict.get k (pydict.set k v d') = Some v) as H0 by apply get_set.
  revert H0. generalize (pydict.set k v d'). clear d'.
  induction later as [|[k' v'] later IH]; intros d' Hd'; simpl; [done|].
  unfold pydict.keys in Hk. simpl in Hk. apply not_elem_of_cons in Hk as [? ?].
  apply IH; [done|]. by rewrite get_set_ne.
Qed.

End pydict_facts.

(** ** The candidate index *)

Section index_facts.
Implicit Types (m idx : gmap string (list cand_data)) (row : pd.Series).

Lemma wf_table_readable required df :
  wf_table required df -> Forall (readable required) (pd.iterrows df).
Proof.
  intros (Hnd & Hreq & Hlen). unfold pd.iterrows. rewrite Forall_map.
  eapply Forall_impl; [exact Hlen|]. intros row Hrow. simpl.
  eapply Forall_impl; [exact Hreq|]. intros l Hl. simpl.
  by apply getitem_zip_elem.
Qed.

Lemma index_candidate_spec m row :
  readable candidate_columns row ->
  index_candidate m row
  = Ok (match entry_of row with
        | Some (p, c) => <[p := default [] (m !! p) ++ [c]]> m
        | None => m
        end).
Proof.
  intros Hrow. apply Forall_cons in Hrow as [[cid Hid] Hrow].
  apply Forall_cons in Hrow as [[key Hkey] _].
  unfold index_candidate, entry_of, parsed_key.
  rewrite (getitem_cell _ _ _ Hkey), (getitem_cell _ _ _ Hid), Hkey. simpl.
  destruct (parse_composite_key key) as [[[p x] parts]|e] eqn:Hp; simpl.
  - rewrite Hid. simpl. f_equal.
    destruct (m !! p) as [b|] eqn:Hb; simpl.
    + by rewrite Hb.
    + by rewrite lookup_insert_eq, insert_insert_eq.
  - by destruct (parse_raises_ValueError _ _ Hp) as [why ->].
Qed.

Lemma bucket_of_cons prefix row rows :
  bucket_of prefix (row :: rows)
  = match entry_of row with
    | Some (p, c) =>
        if decide (p = prefix) then c :: bucket_of prefix rows
        else bucket_of prefix rows
    | None => bucket_of prefix rows
    end.
Proof.
  unfold bucket_of. simpl. destruct (entry_of row) as [[p c]|]; simpl; [|done].
  by case_decide.
Qed.

Lemma index_rows_spec rows m :
  Forall (readable candidate_columns) rows ->
  exists idx,
    for_each index_candidate rows m = Ok idx /\
    forall p, idx !! p = extend (m !! p) (bucket_of p rows).
Proof.
  intros Hrows. revert m.
  induction Hrows as [|row rows Hrow _ IH]; intros m.
  - exists m. split; [done|]. intros p.
    destruct (m !! p); simpl; [by rewrite app_nil_r|done].
  - cbn [for_each]. rewrite index_candidate_spec by done.
    cbn [mbind result_bind].
    destruct (entry_of row) as [[p c]|] eqn:He.
    + destruct (IH (<[p := default [] (m !! p) ++ [c]]> m)) as (idx & -> & Hidx).
      exists idx. split; [done|]. intros p'.
      rewrite Hidx, bucket_of_cons, He.
      destruct (decide (p = p')) as [<-|Hne].
      * rewrite lookup_insert_eq. unfold extend. simpl.
        rewrite <- app_assoc. simpl.
        by destruct (bucket_of p rows), (m !! p).
      * by rewrite lookup_insert_ne.
    + destruct (IH m) as (idx & -> & Hidx). exists idx. split; [done|].
      intros p. by rewrite Hidx, bucket_of_cons, He.
Qed.

Lemma build_spec candidates_df :
  wf_table candidate_columns candidates_df ->
  exists idx,
    build_candidates_by_prefix candidates_df = Ok idx /\
    forall p, idx !! p = match bucket_of p (pd.iterrows candidates_df) with
                         | [] => None
                         | b => Some b
                         end.
Proof.
  intros Hwf. unfold build_candidates_by_prefix.
  destruct (index_rows_spec (pd.iterrows candidates_df) ∅) as (idx & -> & Hidx).
  { by eapply wf_table_readable. }
  exists idx. split; [done|]. intros p. rewrite Hidx, lookup_empty.
  by destruct (bucket_of _ _).
Qed.

Lemma select_matches_filter candidate_list target :
  select_matches candidate_list target
  = map full_row
      (List.filter (fun c => SFleb (salary c) target) candidate_list).
Proof.
  unfold select_matches.
  assert (forall acc,
    foldl (fun matches c =>
             if SFleb (salary c) target then matches ++ [full_row c]
             else matches) acc candidate_list
    = acc ++ map full_row
               (List.filter (fun c => SFleb (salary c) target) candidate_list))
    as H; [|apply H].
  induction candidate_list as [|c cs IH]; intros acc; simpl.
  - by rewrite app_nil_r.
  - rewrite IH. destruct (SFleb (salary c) target); simpl; [|done].
    by rewrite <- app_assoc.
Qed.

Lemma select_bucket prefix target rows :
  select_matches (bucket_of prefix rows) target
  = List.filter (qualifies prefix target) rows.
Proof.
  rewrite select_matches_filter.
  induction rows as [|row rows IH]; [done|].
  rewrite bucket_of_cons. cbn [List.filter]. unfold qualifies at 1, entry_of.
  destruct (parsed_key row) as [[p x]|]; simpl; [|done].
  case_decide.
  - rewrite bool_decide_eq_true_2 by done. simpl.
    destruct (SFleb x target); simpl; by rewrite IH.
  - by rewrite bool_decide_eq_false_2.
Qed.

Lemma filter_iterrows (f : pd.Series -> bool) df :
  List.filter f (pd.iterrows df)
  = map (zip (pd.columns df))
        (List.filter (fun vs => f (zip (pd.columns df) vs)) (pd.data df)).
Proof.
  unfold pd.iterrows. induction (pd.data df) as [|vs vss IH]; simpl; [done|].
  destruct (f _); simpl; by rewrite IH.
Qed.

End index_facts.

(** ** The matcher *)

Section matcher_facts.
Variable candidates_df : pd.DataFrame.
Hypothesis candidates_wf : wf_table candidate_columns candidates_df.

Lemma matching_rows_length prefix target :
  Forall (fun row => length row = length (pd.columns candidates_df))
         (matching_rows candidates_df prefix target).
Proof.
  destruct candidates_wf as (_ & _ & Hlen). apply Forall_forall.
  intros row Hrow%list_elem_of_In. apply filter_In in Hrow as [Hrow _].
  eapply Forall_forall in Hlen; [done|]. by apply list_elem_of_In.
Qed.

Lemma select_index idx prefix target :
  build_candidates_by_prefix candidates_df = Ok idx ->
  select_matches (default [] (idx !! prefix)) target
  = map (zip (pd.columns candidates_df))
        (matching_rows candidates_df prefix target).
Proof.
  intros Hidx. destruct (build_spec _ candidates_wf) as (idx' & Hb & Hl).
  rewrite Hidx in Hb. injection Hb as <-. rewrite Hl.
  unfold matching_rows. rewrite <- filter_iterrows, <- select_bucket.
  by destruct (bucket_of _ _).
Qed.

Lemma match_job_spec idx results job_row :
  build_candidates_by_prefix candidates_df = Ok idx ->
  readable job_columns job_row ->
  match_job idx results job_row
  = Ok (match job_entry candidates_df job_row with
        | Some (job_id, data) => pydict.set job_id data results
        | None => results
        end).
Proof.
  intros Hidx Hrow. apply Forall_cons in Hrow as [[jid Hid] Hrow].
  apply Forall_cons in Hrow as [[key Hkey] _].
  pose proof (select_index idx) as Hsel.
  unfold match_job, job_entry, parsed_key.
  rewrite (getitem_cell _ _ _ Hid).
  change CANDIDATES_COLUMNS.composite_key_col
    with JOBS_COLUMNS.composite_key_col.
  rewrite (getitem_cell _ _ _ Hkey), Hid, Hkey. cbn [mbind result_bind].
  destruct (parse_composite_key key) as [[[p t] parts]|e] eqn:Hp.
  2:{ by destruct (parse_raises_ValueError _ _ Hp) as [why ->]. }
  cbn [mbind result_bind option_bind]. specialize (Hsel p t Hidx).
  unfold result_of.
  destruct (idx !! p) as [b|]; simpl in Hsel.
  - rewrite Hsel.
    pose proof (matching_rows_length p t) as Hlen.
    destruct (matching_rows candidates_df p t) as [|r rs] eqn:Hm; [done|].
    pose proof (DataFrame_of_rows (pd.columns candidates_df) (r :: rs)
                  (proj1 candidates_wf) ltac:(done) Hlen) as Hdf.
    cbn [map] in Hdf |- *. by rewrite Hdf.
  - cbn [mbind result_bind except_ValueError].
    symmetry in Hsel. apply map_eq_nil in Hsel. by rewrite Hsel.
Qed.

Lemma foldl_job_entries rows results :
  foldl (fun results job_row =>
           match job_entry candidates_df job_row with
           | Some (job_id, data) => pydict.set job_id data results
           | None => results
           end) results rows
  = pydict.update (omap (job_entry candidates_df) rows) results.
Proof.
  revert results. induction rows as [|row rows IH]; intros results; [done|].
  simpl. rewrite IH. by destruct (job_entry candidates_df row) as [[? ?]|].
Qed.

(** The matcher returns, and what it returns. *)
Lemma find_spec jobs_df :
  wf_table job_columns jobs_df ->
  find_matching_candidates_for_all_jobs jobs_df candidates_df
  = Ok (pydict.update (omap (job_entry candidates_df) (pd.iterrows jobs_df))
                      []).
Proof.
  intros Hjobs. unfold find_matching_candidates_for_all_jobs.
  destruct (build_spec _ candidates_wf) as (idx & Hidx & _).
  rewrite Hidx. cbn [mbind result_bind].
  rewrite <- foldl_job_entries. apply for_each_total.
  eapply Forall_impl; [by eapply wf_table_readable|]. simpl.
  intros row Hrow results. by apply match_job_spec.
Qed.

(** Every entry of [results] is the contribution of a job record. *)
Lemma find_entries jobs_df results job_id data :
  wf_table job_columns jobs_df ->
  find_matching_candidates_for_all_jobs jobs_df candidates_df = Ok results ->
  (job_id, data) ∈ results ->
  exists job_row,
    job_row ∈ pd.iterrows jobs_df /\
    job_entry candidates_df job_row = Some (job_id, data).
Proof.
  intros Hjobs Hfind Hin. rewrite find_spec in Hfind by done.
  injection Hfind as <-.
  apply elem_of_update in Hin as [Hin|Hin]; [|by apply elem_of_nil in Hin].
  apply list_elem_of_omap in Hin as (row & ? & ?). by exists row.
Qed.

Lemma job_entry_inv job_row job_id data :
  job_entry candidates_df job_row = Some (job_id, data) ->
  exists prefix target parts,
    parse_composite_key (job_key data) = Ok (prefix, target, parts) /\
    job_id = cell job_row JOBS_COLUMNS.job_id_col /\
    data = result_of candidates_df
             (cell job_row JOBS_COLUMNS.composite_key_col) prefix target.
Proof.
  unfold job_entry, parsed_key.
  change CANDIDATES_COLUMNS.composite_key_col
    with JOBS_COLUMNS.composite_key_col.
  destruct (parse_composite_key _) as [[[p t] parts]|e] eqn:Hp; [|done].
  simpl. intros [= <- <-]. by exists p, t, parts.
Qed.

End matcher_facts.

(** ** Properties of the specification *)

Local Ltac solve_wf :=
  unfold wf_table; split_and!;
  [ apply (bool_decide_unpack _); vm_compute; reflexivity
  | repeat constructor; apply (bool_decide_unpack _); vm_compute; reflexivity
  | repeat constructor ].

Lemma example_candidates_wf : wf_table candidate_columns example.candidates.
Proof. solve_wf. Qed.

Lemma example_jobs_wf : wf_table job_columns example.jobs.
Proof. solve_wf. Qed.

Lemma more_candidates_wf : wf_table candidate_columns example.more_candidates.
Proof. solve_wf. Qed.

Lemma more_jobs_wf : wf_table job_columns example.more_jobs.
Proof. solve_wf. Qed.




(** C6.  Building the index of a table always gives the same mapping: the
    bucket of a prefix holds the candidates with a valid key of that
    prefix in the order of the table, and a prefix without such a candidate
    has no bucket. *)
Theorem index_is_a_function_of_the_table candidates_df :
  wf_table candidate_columns candidates_df ->
  exists idx,
    build_candidates_by_prefix candidates_df = Ok idx /\
    (forall idx',
        build_candidates_by_prefix candidates_df = Ok idx' -> idx' = idx) /\
    (forall prefix,
        idx !! prefix
        = match bucket_of prefix (pd.iterrows candidates_df) with
          | [] => None
          | b => Some b
          end) /\
    (forall prefix, idx !! prefix <> Some []).
Proof.
  intros Hwf. destruct (build_spec _ Hwf) as (idx & Hidx & Hlookup).
  exists idx. split_and!; [done| |done|].
  - intros idx'. rewrite Hidx. by intros [= <-].
  - intros prefix. rewrite Hlookup. by destruct (bucket_of _ _).
Qed.

Lemma index_is_a_function_of_the_table_witness :
  exists idx,
    build_candidates_by_prefix example.more_candidates = Ok idx /\
    (forall idx',
        build_candidates_by_prefix example.more_candidates = Ok idx' ->
        idx' = idx) /\
    (forall prefix,
        idx !! prefix
        = match bucket_of prefix (pd.iterrows example.more_candidates) with
          | [] => None
          | b => Some b
          end) /\
    (forall prefix, idx !! prefix <> Some []).
Proof.
  apply index_is_a_function_of_the_table. exact more_candidates_wf.
Defined.

(** C10.  In every entry of [results] the count is the number of rows of
    the entry's table of matches, 0 when there is none. *)
Theorem count_is_number_of_rows jobs_df candidates_df results job_id data :
  find_matching_candidates_for_all_jobs jobs_df candidates_df = Ok results ->
  (job_id, data) ∈ results ->
  count data = pd.len (matches data) /\
  (pd.data (matches data) = [] -> count data = 0).
Proof.
  intros Hfind Hin.
  assert (count data = pd.len (matches data)) as Hcount.
  2:{ split; [done|]. rewrite Hcount. unfold pd.len. by intros ->. }
  unfold find_matching_candidates_for_all_jobs in Hfind.
  destruct (build_candidates_by_prefix candidates_df) as [idx|]; [|done].
  cbn [mbind result_bind] in Hfind.
  pose (P := fun results : list (value * match_result) =>
               Forall (fun e => count e.2 = pd.len (matches e.2)) results).
  assert (P results) as HP.
  { eapply (for_each_invariant P); [|by constructor|exact Hfind].
    clear. intros results row results' HP. unfold match_job.
    destruct (pd.Series_getitem row JOBS_COLUMNS.job_id_col) as [jid|];
      cbn [mbind result_bind]; [|done].
    destruct (pd.Series_getitem row JOBS_COLUMNS.composite_key_col) as [key|];
      cbn [mbind result_bind]; [|done].
    destruct (parse_composite_key key) as [[[p t] parts]|[]];
      cbn [mbind result_bind except_ValueError]; [|by intros [= <-]|done].
    destruct (idx !! p) as [b|].
    - destruct (select_matches b t); cbn [except_ValueError];
        intros [= <-]; by apply Forall_set.
    - cbn [except_ValueError]. intros [= <-]. by apply Forall_set. }
  eapply Forall_forall in HP; [|exact Hin]. done.
Qed.

Lemma count_is_number_of_rows_witness :
  count (result_of example.candidates (Text "12_3_4_3.0") "12_3_4" example.three)
  = 1.
Proof.
  refine (proj1 (count_is_number_of_rows example.jobs example.candidates
                   [(Text "J1", _)] (Text "J1") _ _ _)).
  - vm_compute. reflexivity.
  - by left.
Defined.

Section matcher_properties.
Variables jobs_df candidates_df : pd.DataFrame.
Hypothesis jobs_wf : wf_table job_columns jobs_df.
Hypothesis candidates_wf : wf_table candidate_columns candidates_df.

Lemma result_of_data key prefix target :
  pd.data (matches (result_of candidates_df key prefix target))
  = matching_rows candidates_df prefix target.
Proof. unfold result_of. simpl. by destruct (matching_rows _ _ _). Qed.

Lemma elem_of_matching_rows row prefix target :
  row ∈ matching_rows candidates_df prefix target <->
  row ∈ pd.data candidates_df /\
  exists ceiling,
    parsed_key (zip (pd.columns candidates_df) row) = Some (prefix, ceiling) /\
    SFleb ceiling target = true.
Proof.
  unfold matching_rows. rewrite list_elem_of_In, filter_In, <- list_elem_of_In.
  unfold qualifies.
  destruct (parsed_key _) as [[p c]|].
  - rewrite andb_true_iff, bool_decide_eq_true. split.
    + intros (Hrow & -> & Hle). split; [done|]. by exists c.
    + intros (Hrow & c' & [= -> ->] & Hle). done.
  - split; [by intros [_ ?]|]. by intros (_ & c & ? & _).
Qed.

(** What is known of an entry of [results]. *)
Lemma entry_spec results job_id data :
  find_matching_candidates_for_all_jobs jobs_df candidates_df = Ok results ->
  (job_id, data) ∈ results ->
  exists prefix parts,
    parse_composite_key (job_key data)
    = Ok (prefix, target_salary data, parts) /\
    data = result_of candidates_df (job_key data) prefix (target_salary data).
Proof.
  intros Hfind Hin.
  destruct (find_entries _ candidates_wf _ _ _ _ jobs_wf Hfind Hin)
    as (row & _ & Hentry).
  apply job_entry_inv in Hentry as (p & t & parts & Hp & _ & ->).
  by exists p, parts.
Qed.

End matcher_properties.




(** C5.  Of two jobs with the same prefix, the one with the greater or
    equal ceiling has every match of the other. *)
Theorem matching_monotone_in_ceiling jobs_df candidates_df results
    idA dataA idB dataB prefix ceilingA ceilingB partsA partsB :
  wf_table job_columns jobs_df ->
  wf_table candidate_columns candidates_df ->
  find_matching_candidates_for_all_jobs jobs_df candidates_df = Ok results ->
  (idA, dataA) ∈ results ->
  (idB, dataB) ∈ results ->
  parse_composite_key (job_key dataA) = Ok (prefix, ceilingA, partsA) ->
  parse_composite_key (job_key dataB) = Ok (prefix, ceilingB, partsB) ->
  SFleb ceilingB ceilingA = true ->
  forall row, row ∈ pd.data (matches dataB) -> row ∈ pd.data (matches dataA).
Proof.
  intros Hjobs Hcands Hfind HA HB HpA HpB Hle row.
  destruct (entry_spec _ _ Hjobs Hcands _ _ _ Hfind HA) as (pA & ? & HpA' & HdA).
  destruct (entry_spec _ _ Hjobs Hcands _ _ _ Hfind HB) as (pB & ? & HpB' & HdB).
  rewrite HpA in HpA'. rewrite HpB in HpB'.
  injection HpA' as <- HtA _. injection HpB' as <- HtB _.
  rewrite HdA, HdB, !result_of_data, !elem_of_matching_rows by done.
  rewrite <- HtA, <- HtB.
  intros (Hrow & c & Hc & Hcb). split; [done|]. exists c. split; [done|].
  by eapply SFleb_trans.
Qed.

Lemma matching_monotone_in_ceiling_witness :
  [Text "1"; Text "12_3_4_2.0"]
  ∈ [[Text "1"; Text "12_3_4_2.0"]; [Text "2"; Text "12_3_4_3.5"]].
Proof.
  refine (matching_monotone_in_ceiling example.more_jobs example.more_candidates
            _ (Text "J4")
            (mk_match_result (Text "12_3_4_3.5") example.three_and_a_half
               (pd.mkDataFrame ["candidate_id"; "composit_key"]
                  [[Text "1"; Text "12_3_4_2.0"]; [Text "2"; Text "12_3_4_3.5"]])
               2)
            (Text "J1")
            (mk_match_result (Text "12_3_4_3.0") example.three
               (pd.mkDataFrame ["candidate_id"; "composit_key"]
                  [[Text "1"; Text "12_3_4_2.0"]])
               1)
            "12_3_4" example.three_and_a_half example.three
            ["12"; "3"; "4"; "3.5"] ["12"; "3"; "4"; "3.0"]
            more_jobs_wf more_candidates_wf _ _ _ _ _ _
            [Text "1"; Text "12_3_4_2.0"] _).
  - vm_compute. reflexivity.
  - right. right. by left.
  - by left.
  - vm_compute. reflexivity.
  - vm_compute. reflexivity.
  - vm_compute. reflexivity.
  - by left.
Defined.

(** ** Jobs and entries *)

Section job_entries.
Variable candidates_df : pd.DataFrame.

Lemma job_entry_valid job_row :
  is_Some (job_entry candidates_df job_row) <-> has_valid_key job_row = true.
Proof.
  unfold job_entry, has_valid_key. rewrite bool_decide_eq_true.
  destruct (parsed_key job_row) as [[p t]|]; simpl.
  - split; by eexists.
  - split; by intros [? ?].
Qed.



End job_entries.




(** In general the entry of a job identifier is that of the last record
    with this identifier and a parseable key. *)
Lemma last_record_of_a_job_id_wins jobs_df candidates_df before row after
    job_id data :
  wf_table job_columns jobs_df ->
  wf_table candidate_columns candidates_df ->
  pd.iterrows jobs_df = before ++ row :: after ->
  job_entry candidates_df row = Some (job_id, data) ->
  job_id ∉ pydict.keys (omap (job_entry candidates_df) after) ->
  exists results,
    find_matching_candidates_for_all_jobs jobs_df candidates_df = Ok results /\
    pydict.get job_id results = Some data.
Proof.
  intros Hjobs Hcands Hrows Hentry Hlast. eexists.
  split; [by apply find_spec|].
  rewrite Hrows, omap_app. cbn [omap list_omap]. rewrite Hentry.
  by apply get_update_last.
Qed.

(** C8.  A job whose key parses and whose prefix has no bucket gets an
    entry with an empty table of matches and count 0: the loop body
    returns without raising, and so it is in [results]. *)
Theorem no_bucket_gives_empty_result jobs_df candidates_df idx :
  wf_table job_columns jobs_df ->
  wf_table candidate_columns candidates_df ->
  build_candidates_by_prefix candidates_df = Ok idx ->
  (forall results job_row prefix target,
      job_row ∈ pd.iterrows jobs_df ->
      parsed_key job_row = Some (prefix, target) ->
      idx !! prefix = None ->
      match_job idx results job_row
      = Ok (pydict.set (cell job_row JOBS_COLUMNS.job_id_col)
              (mk_match_result (cell job_row JOBS_COLUMNS.composite_key_col)
                               target pd.empty_DataFrame 0)
              results)) /\
  exists results,
    find_matching_candidates_for_all_jobs jobs_df candidates_df = Ok results /\
    forall job_id data prefix target parts,
      (job_id, data) ∈ results ->
      parse_composite_key (job_key data) = Ok (prefix, target, parts) ->
      idx !! prefix = None ->
      matches data = pd.empty_DataFrame /\ count data = 0 /\
      pd.empty (matches data) = true.
Proof.
  intros Hjobs Hcands Hidx.
  assert (forall prefix target,
             idx !! prefix = None ->
             matching_rows candidates_df prefix target = []) as Hnone.
  { intros prefix target Hp.
    pose proof (select_index _ Hcands idx prefix target Hidx) as Hsel.
    rewrite Hp in Hsel. symmetry in Hsel. by apply map_eq_nil in Hsel. }
  split.
  - intros results job_row prefix target Hrow Hkey Hp.
    assert (readable job_columns job_row) as Hreadable.
    { pose proof (wf_table_readable _ _ Hjobs) as Hall.
      by eapply Forall_forall in Hall. }
    rewrite (match_job_spec candidates_df Hcands idx results job_row Hidx
               Hreadable).
    unfold job_entry. rewrite Hkey. simpl. unfold result_of.
    by rewrite Hnone.
  - eexists. split; [by apply find_spec|].
    intros job_id data prefix target parts Hin Hparse Hp.
    destruct (entry_spec _ _ Hjobs Hcands _ _ _ (find_spec _ Hcands _ Hjobs) Hin)
      as (p & ? & Hparse' & ->).
    simpl in Hparse'. rewrite Hparse in Hparse'. injection Hparse' as <- _ _.
    unfold result_of. by rewrite Hnone.
Qed.

Lemma no_bucket_gives_empty_result_witness :
  exists idx,
    build_candidates_by_prefix example.more_candidates = Ok idx /\
    idx !! "7_7_7" = None /\
    forall results,
      match_job idx results
        [("job_id", Text "J2"); ("composit_key", Text "7_7_7_1")]
      = Ok (pydict.set (Text "J2")
              (mk_match_result (Text "7_7_7_1") example.one
                               pd.empty_DataFrame 0)
              results).
Proof.
  destruct (build_spec _ more_candidates_wf) as (idx & Hidx & Hlookup).
  assert (idx !! "7_7_7" = None) as Hnone.
  { rewrite Hlookup. vm_compute. reflexivity. }
  exists idx. split_and!; [done|done|]. intros results.
  refine (proj1 (no_bucket_gives_empty_result example.more_jobs
                   example.more_candidates idx more_jobs_wf more_candidates_wf
                   Hidx)
            results [("job_id", Text "J2"); ("composit_key", Text "7_7_7_1")]
            "7_7_7" example.one _ _ Hnone).
  - right. by left.
  - vm_compute. reflexivity.
Defined.

(** ** Malformed records *)

Section malformed.

Lemma filter_filter_implied {A} (f g : A -> bool) (l : list A) :
  (forall x, f x = true -> g x = true) ->
  List.filter f (List.filter g l) = List.filter f l.
Proof.
  intros Hfg. induction l as [|x l IH]; simpl; [done|].
  destruct (g x) eqn:Hg; simpl.
  - by rewrite IH.
  - destruct (f x) eqn:Hf; [|done]. apply Hfg in Hf. congruence.
Qed.

Lemma omap_filter_implied {A B} (f : A -> option B) (g : A -> bool)
    (l : list A) :
  (forall x, is_Some (f x) -> g x = true) ->
  omap f (List.filter g l) = omap f l.
Proof.
  intros Hfg. induction l as [|x l IH]; [done|]. cbn [List.filter].
  destruct (g x) eqn:Hg.
  - cbn [omap list_omap]. by rewrite <- IH.
  - rewrite IH. cbn [omap list_omap]. destruct (f x) eqn:Hf; [|done].
    rewrite Hfg in Hg by by eexists. done.
Qed.

Lemma iterrows_drop_malformed df :
  pd.iterrows (drop_malformed df) = List.filter has_valid_key (pd.iterrows df).
Proof. by rewrite filter_iterrows. Qed.

Lemma drop_malformed_wf required df :
  wf_table required df -> wf_table required (drop_malformed df).
Proof.
  intros (Hnd & Hreq & Hlen). split_and!; [done|done|]. simpl.
  apply Forall_forall. intros row Hrow%list_elem_of_In.
  apply filter_In in Hrow as [Hrow _].
  eapply Forall_forall in Hlen; [done|]. by apply list_elem_of_In.
Qed.

Lemma qualifies_valid prefix target row :
  qualifies prefix target row = true -> has_valid_key row = true.
Proof.
  unfold qualifies, has_valid_key. destruct (parsed_key row); [|done].
  intros _. by apply bool_decide_eq_true_2.
Qed.

Lemma bucket_of_drop_malformed prefix df :
  bucket_of prefix (pd.iterrows (drop_malformed df))
  = bucket_of prefix (pd.iterrows df).
Proof.
  rewrite iterrows_drop_malformed. unfold bucket_of.
  apply omap_filter_implied. intros row. unfold entry_of, has_valid_key.
  destruct (parsed_key row) as [[p c]|]; simpl; [done|].
  by intros [? ?].
Qed.

Lemma matching_rows_drop_malformed df prefix target :
  matching_rows (drop_malformed df) prefix target
  = matching_rows df prefix target.
Proof.
  unfold matching_rows. simpl. apply filter_filter_implied.
  intros row. apply qualifies_valid.
Qed.

Lemma job_entry_drop_malformed df job_row :
  job_entry (drop_malformed df) job_row = job_entry df job_row.
Proof.
  unfold job_entry, result_of.
  destruct (parsed_key job_row) as [[p t]|]; simpl; [|done].
  by rewrite matching_rows_drop_malformed.
Qed.

End malformed.

(** C7.  On tables that have the columns the script reads, index and
    [results] are built whatever the keys are, and they are those of the
    tables without the records with a malformed key: such a candidate is
    in no bucket and such a job has no entry. *)
Theorem malformed_records_are_skipped jobs_df candidates_df :
  wf_table job_columns jobs_df ->
  wf_table candidate_columns candidates_df ->
  exists idx results,
    build_candidates_by_prefix candidates_df = Ok idx /\
    find_matching_candidates_for_all_jobs jobs_df candidates_df = Ok results /\
    build_candidates_by_prefix (drop_malformed candidates_df) = Ok idx /\
    find_matching_candidates_for_all_jobs
      (drop_malformed jobs_df) (drop_malformed candidates_df) = Ok results /\
    (forall prefix bucket c,
        idx !! prefix = Some bucket -> c ∈ bucket ->
        has_valid_key (full_row c) = true) /\
    (forall job_id data,
        (job_id, data) ∈ results ->
        is_Ok (parse_composite_key (job_key data)) = true).
Proof.
  intros Hjobs Hcands.
  destruct (build_spec _ Hcands) as (idx & Hidx & Hlookup).
  destruct (build_spec _ (drop_malformed_wf _ _ Hcands))
    as (idx' & Hidx' & Hlookup').
  assert (idx' = idx) as ->.
  { apply map_eq. intros p.
    by rewrite Hlookup, Hlookup', bucket_of_drop_malformed. }
  exists idx. eexists. split_and!; [done|by apply find_spec|done| | |].
  - rewrite find_spec by by apply drop_malformed_wf.
    do 2 f_equal. rewrite iterrows_drop_malformed.
    rewrite omap_filter_implied by (intros row; apply job_entry_valid).
    apply list_omap_ext, Forall2_same_length_lookup_2; [done|].
    intros i row row' Hrow Hrow'. rewrite Hrow in Hrow'. injection Hrow' as <-.
    apply job_entry_drop_malformed.
  - intros prefix bucket c Hb Hc. rewrite Hlookup in Hb.
    assert (c ∈ bucket_of prefix (pd.iterrows candidates_df)) as Hin.
    { destruct (bucket_of _ _); [done|]. by injection Hb as <-. }
    apply list_elem_of_omap in Hin as (row & _ & Hrow).
    unfold entry_of, has_valid_key in *.
    destruct (parsed_key row) as [[p x]|] eqn:Hkey; [|done]. simpl in Hrow.
    case_decide; [|done]. injection Hrow as <-. simpl.
    rewrite Hkey. by apply bool_decide_eq_true_2.
  - intros job_id data Hin.
    destruct (entry_spec _ _ Hjobs Hcands _ _ _ (find_spec _ Hcands _ Hjobs) Hin)
      as (p & parts & -> & _). done.
Qed.

Lemma malformed_records_are_skipped_witness :
  exists idx results,
    build_candidates_by_prefix example.more_candidates = Ok idx /\
    find_matching_candidates_for_all_jobs example.more_jobs
      example.more_candidates = Ok results /\
    build_candidates_by_prefix (drop_malformed example.more_candidates)
    = Ok idx /\
    find_matching_candidates_for_all_jobs
      (drop_malformed example.more_jobs)
      (drop_malformed example.more_candidates) = Ok results /\
    (forall prefix bucket c,
        idx !! prefix = Some bucket -> c ∈ bucket ->
        has_valid_key (full_row c) = true) /\
    (forall job_id data,
        (job_id, data) ∈ results ->
        is_Ok (parse_composite_key (job_key data)) = true).
Proof.
  apply malformed_records_are_skipped;
    [exact more_jobs_wf|exact more_candidates_wf].
Defined.

(** ** The exporter *)

Section heap_facts.
Implicit Types (h : heap.t) (df : pd.DataFrame).

Lemma get_new h df more : heap.get (h ++ df :: more) (length h) = df.
Proof. unfold heap.get. by rewrite list_lookup_middle. Qed.

Lemma get_old h more r : r < length h -> heap.get (h ++ more) r = heap.get h r.
Proof. intros Hr. unfold heap.get. by rewrite lookup_app_l. Qed.

Lemma update_new h df f : heap.update (length h) f (h ++ [df]) = h ++ [f df].
Proof.
  unfold heap.update. rewrite <- (Nat.add_0_r (length h)).
  by rewrite alter_app_r.
Qed.

Lemma map_get_old h more (rs : list heap.ref) :
  Forall (fun r => r < length h) rs ->
  map (heap.get (h ++ more)) rs = map (heap.get h) rs.
Proof.
  intros Hrs. apply map_ext_in. intros r Hr%list_elem_of_In.
  apply get_old. by eapply Forall_forall in Hrs.
Qed.
End heap_facts.

Section column_facts.
Import pd.
Implicit Types (cols labels : list string) (row : list value).

Lemma getitem_app_l (s more : Series) l v :
  Series_getitem s l = Ok v -> Series_getitem (s ++ more) l = Ok v.
Proof.
  induction s as [|[l' v'] s IH]; simpl; [done|]. case_decide; auto.
Qed.

Lemma getitem_app_r (s : Series) l v :
  l ∉ s.*1 -> Series_getitem (s ++ [(l, v)]) l = Ok v.
Proof.
  induction s as [|[l' v'] s IH]; simpl.
  - intros _. by rewrite decide_True.
  - rewrite not_elem_of_cons. intros [? ?]. rewrite decide_False by done. auto.
Qed.

Lemma zip_snoc cols row l v :
  length row = length cols ->
  zip (cols ++ [l]) (row ++ [v]) = zip cols row ++ [(l, v)].
Proof. intros Hlen. by rewrite zip_with_app. Qed.

Lemma reindex_app_l labels (s more : Series) :
  Forall (fun l => exists v, Series_getitem s l = Ok v) labels ->
  reindex labels (s ++ more) = reindex labels s.
Proof.
  intros H. unfold reindex. apply map_ext_in. intros l Hl%list_elem_of_In.
  eapply Forall_forall in H as [v Hv]; [|done].
  by rewrite (getitem_app_l _ _ _ _ Hv), Hv.
Qed.

Lemma positions_spec labels have :
  Forall (fun l => l ∈ have) labels ->
  exists ps, positions labels have = Ok ps /\
             Forall2 (fun l i => index_of l have = Some i) labels ps.
Proof.
  induction 1 as [|l labels Hl _ (ps & Hps & Hall)]; simpl.
  - by exists [].
  - destruct (index_of_elem _ _ Hl) as [i Hi]. rewrite Hi, Hps. simpl.
    exists (i :: ps). split; [done|]. by constructor.
Qed.

(** [df[labels]] reads every row under the labels. *)
Lemma getitem_cols_spec df labels :
  Forall (fun l => l ∈ columns df) labels ->
  Forall (fun row => length row = length (columns df)) (data df) ->
  getitem_cols df labels
  = Ok (mkDataFrame labels
          (map (fun row => reindex labels (zip (columns df) row)) (data df))).
Proof.
  intros Hlabels Hrows. unfold getitem_cols.
  destruct (positions_spec _ _ Hlabels) as (ps & -> & Hps). simpl.
  do 2 f_equal. apply map_ext_in. intros row Hrow%list_elem_of_In.
  eapply Forall_forall in Hrows; [|done]. unfold reindex.
  clear Hlabels. induction Hps as [|l i labels ps Hi _ IH]; simpl; [done|].
  rewrite IH. f_equal.
  destruct (getitem_zip _ _ _ _ Hrows Hi) as (v & -> & ->). done.
Qed.

Lemma setitem_fresh df l values :
  l ∉ columns df ->
  setitem df l values
  = mkDataFrame (columns df ++ [l])
                (zip_with (fun row v => row ++ [v]) (data df) values).
Proof. intros Hl%index_of_None. unfold setitem. by rewrite Hl. Qed.

Lemma filter_other_labels cols l :
  l ∉ cols ->
  List.filter (fun col => negb (String.eqb col l)) (cols ++ [l]) = cols.
Proof.
  induction cols as [|c cols IH]; simpl.
  - intros _. by rewrite String.eqb_refl.
  - rewrite not_elem_of_cons. intros [Hne Hl].
    destruct (String.eqb_spec c l) as [->|_]; [done|]. simpl. by rewrite IH.
Qed.

Lemma getitem_col_spec df l :
  l ∈ columns df ->
  Forall (fun row => length row = length (columns df)) (data df) ->
  getitem_col df l = Ok (map (fun row => cell (zip (columns df) row) l) (data df)).
Proof.
  intros [i Hi]%index_of_elem Hrows. unfold getitem_col. rewrite Hi.
  f_equal. apply map_ext_in. intros row Hrow%list_elem_of_In.
  eapply Forall_forall in Hrows; [|done]. by rewrite (cell_zip _ _ _ i).
Qed.

Lemma apply_total (f : value -> result value) (g : value -> value) xs :
  Forall (fun x => f x = Ok (g x)) xs -> apply f xs = Ok (map g xs).
Proof.
  induction 1 as [|x xs Hx _ IH]; simpl; [done|]. by rewrite Hx, IH.
Qed.

End column_facts.

Section export_facts.
Import pd.

Variable labels : list string.
Hypothesis labels_NoDup : NoDup labels.
Hypothesis job_id_fresh : JOBS_COLUMNS.job_id_col ∉ labels.
Hypothesis extracted_fresh : extracted_salary_col ∉ labels.
Hypothesis key_present : CANDIDATES_COLUMNS.composite_key_col ∈ labels.
Hypothesis id_present : CANDIDATES_COLUMNS.candidate_id_col ∈ labels.

Implicit Types (rows : list (list value)) (job_id : value).

Lemma with_job_id rows job_id :
  setitem_scalar (mkDataFrame labels rows) JOBS_COLUMNS.job_id_col job_id
  = mkDataFrame (labels ++ [JOBS_COLUMNS.job_id_col])
                (map (fun row => row ++ [job_id]) rows).
Proof.
  unfold setitem_scalar. rewrite setitem_fresh by done. simpl. f_equal.
  unfold len. simpl. by rewrite zip_with_replicate_r_eq.
Qed.

Lemma reindex_job_id_first row job_id :
  length row = length labels ->
  reindex (JOBS_COLUMNS.job_id_col :: labels)
          (zip (labels ++ [JOBS_COLUMNS.job_id_col]) (row ++ [job_id]))
  = job_id :: row.
Proof.
  intros Hlen. rewrite zip_snoc by done. unfold reindex at 1.
  cbn [map]. fold (reindex labels (zip labels row ++ [(JOBS_COLUMNS.job_id_col, job_id)])).
  rewrite getitem_app_r.
  - f_equal. rewrite reindex_app_l; [by apply reindex_zip|].
    apply Forall_forall. intros l Hl. by apply getitem_zip_elem.
  - rewrite fst_zip by lia. done.
Qed.

Lemma job_id_first rows job_id :
  full_rows labels rows ->
  getitem_cols (mkDataFrame (labels ++ [JOBS_COLUMNS.job_id_col])
                            (map (fun row => row ++ [job_id]) rows))
               (JOBS_COLUMNS.job_id_col :: labels)
  = Ok (mkDataFrame (JOBS_COLUMNS.job_id_col :: labels)
                    (map (cons job_id) rows)).
Proof.
  intros Hfull. rewrite getitem_cols_spec; simpl.
  - do 2 f_equal. rewrite map_map. apply map_ext_in.
    intros row Hrow%list_elem_of_In. apply reindex_job_id_first.
    by eapply Forall_forall in Hfull.
  - constructor; [set_solver|]. apply Forall_forall. set_solver.
  - rewrite Forall_map. eapply Forall_impl; [exact Hfull|]. simpl.
    intros row Hrow. rewrite !length_app. simpl. lia.
Qed.

Lemma key_column rows job_id :
  full_rows labels rows ->
  getitem_col (mkDataFrame (JOBS_COLUMNS.job_id_col :: labels)
                           (map (cons job_id) rows))
              CANDIDATES_COLUMNS.composite_key_col
  = Ok (map (fun row => cell (zip labels row)
                             CANDIDATES_COLUMNS.composite_key_col) rows).
Proof.
  intros Hfull. rewrite getitem_col_spec; simpl.
  - f_equal. rewrite map_map. apply map_ext. intros row.
    unfold cell. by simpl.
  - by right.
  - rewrite Forall_map. eapply Forall_impl; [exact Hfull|]. simpl.
    intros row Hrow. by rewrite Hrow.
Qed.

Lemma extract_salary_valid row :
  has_valid_key (zip labels row) = true ->
  extract_salary (cell (zip labels row) CANDIDATES_COLUMNS.composite_key_col)
  = Ok (ceiling_cell labels row).
Proof.
  unfold has_valid_key, ceiling_cell, parsed_key, extract_salary.
  rewrite bool_decide_eq_true.
  generalize (cell (zip labels row) CANDIDATES_COLUMNS.composite_key_col).
  intros x.
  destruct (parse_composite_key x) as [[[p c] parts]|e] eqn:Hp;
    [|by intros [? ?]].
  intros _. by destruct x.
Qed.

Lemma extracted_values rows :
  Forall (fun row => has_valid_key (zip labels row) = true) rows ->
  apply extract_salary
    (map (fun row => cell (zip labels row)
                          CANDIDATES_COLUMNS.composite_key_col) rows)
  = Ok (map (ceiling_cell labels) rows).
Proof.
  induction 1 as [|row rows Hrow _ IH]; simpl; [done|].
  by rewrite extract_salary_valid, IH.
Qed.

Lemma with_extracted_salary rows job_id :
  setitem (mkDataFrame (JOBS_COLUMNS.job_id_col :: labels)
                       (map (cons job_id) rows))
          extracted_salary_col (map (ceiling_cell labels) rows)
  = exported_frame job_id (mkDataFrame labels rows).
Proof.
  rewrite setitem_fresh; simpl.
  - unfold exported_frame, exported_rows, exported_columns. simpl. f_equal.
    rewrite zip_with_fmap_l, zip_with_fmap_r, zip_with_diag. done.
  - rewrite not_elem_of_cons. split; [done|exact extracted_fresh].
Qed.

Lemma preview_readable job_id rows :
  exists preview,
    getitem_cols (exported_frame job_id (mkDataFrame labels rows))
                 preview_cols = Ok preview.
Proof.
  unfold getitem_cols.
  destruct (positions_spec preview_cols
              (columns (exported_frame job_id (mkDataFrame labels rows))))
    as (ps & -> & _); [|by eexists].
  unfold exported_frame, exported_columns, preview_cols. simpl.
  repeat constructor; set_solver.
Qed.

Lemma labels_nonempty : labels <> [].
Proof. intros E. rewrite E in key_present. by apply elem_of_nil in key_present. Qed.

(** One turn of the loop for a job with matches: two objects are
    created, the second is appended and is the one that gets the
    column [extracted_salary]. *)
Lemma export_job_spec st job_id data :
  matches_of labels (matches data) ->
  exists tmp,
    export_job st (job_id, data)
    = Ok (mk_export_state
            (objects st ++ [tmp; exported_frame job_id (matches data)])
            (all_matches_dfs st ++ [S (length (objects st))])
            (total_matches st + len (matches data))).
Proof.
  destruct data as [key target [cols rows] n]. simpl.
  intros (Hcols & Hne & Hrows). simpl in *. subst cols.
  assert (full_rows labels rows) as Hfull.
  { eapply Forall_impl; [exact Hrows|]. by intros row [? _]. }
  assert (Forall (fun row => has_valid_key (zip labels row) = true) rows)
    as Hvalid.
  { eapply Forall_impl; [exact Hrows|]. by intros row [_ ?]. }
  eexists. unfold export_job. cbn [matches heap.new].
  assert (empty (mkDataFrame labels rows) = false) as ->.
  { apply bool_decide_eq_false_2. pose proof labels_nonempty. simpl. tauto. }
  rewrite update_new, get_new, with_job_id. cbn [columns].
  rewrite filter_other_labels by done.
  change (JOBS_COLUMNS.job_id_col :: labels)
    with (JOBS_COLUMNS.job_id_col :: labels).
  rewrite job_id_first by done. cbn [mbind result_bind].
  rewrite get_new, key_column by done. cbn [mbind result_bind].
  rewrite extracted_values by done. cbn [mbind result_bind].
  rewrite update_new, get_new, with_extracted_salary.
  destruct (preview_readable job_id rows) as [preview ->].
  cbn [mbind result_bind]. rewrite length_app, <- app_assoc. simpl.
  by rewrite Nat.add_1_r.
Qed.

Lemma export_job_skip st job_id data :
  empty (matches data) = true -> export_job st (job_id, data) = Ok st.
Proof. intros H. unfold export_job. by rewrite H. Qed.

End export_facts.

Section export_loop.
Import pd.

Variable labels : list string.
Hypothesis labels_NoDup : NoDup labels.
Hypothesis job_id_fresh : JOBS_COLUMNS.job_id_col ∉ labels.
Hypothesis extracted_fresh : extracted_salary_col ∉ labels.
Hypothesis key_present : CANDIDATES_COLUMNS.composite_key_col ∈ labels.
Hypothesis id_present : CANDIDATES_COLUMNS.candidate_id_col ∈ labels.

Lemma has_matches_false job_id item :
  empty (matches item) = true -> has_matches (job_id, item) = false.
Proof. unfold has_matches. simpl. by intros ->. Qed.

Lemma matches_of_not_empty df : matches_of labels df -> empty df = false.
Proof.
  intros (Hcols & Hne & _). apply bool_decide_eq_false_2.
  pose proof (labels_nonempty labels key_present). rewrite Hcols. tauto.
Qed.

Lemma has_matches_true job_id item :
  matches_of labels (matches item) -> has_matches (job_id, item) = true.
Proof.
  intros H%matches_of_not_empty. unfold has_matches. simpl. by rewrite H.
Qed.

Lemma export_loop_spec results st :
  matcher_made labels results ->
  Forall (fun r => r < length (objects st)) (all_matches_dfs st) ->
  exists st',
    for_each export_job results st = Ok st' /\
    Forall (fun r => r < length (objects st')) (all_matches_dfs st') /\
    map (heap.get (objects st')) (all_matches_dfs st')
    = map (heap.get (objects st)) (all_matches_dfs st)
      ++ map (fun item => exported_frame item.1 (matches item.2))
             (List.filter has_matches results) /\
    total_matches st'
    = total_matches st
      + length (flat_map (fun item => data (matches item.2))
                         (List.filter has_matches results)).
Proof.
  intros Hmade. revert st.
  induction Hmade as [|[job_id item] results Hitem _ IH]; intros st Hrefs.
  - exists st. simpl. by rewrite app_nil_r, Nat.add_0_r.
  - cbn [for_each List.filter]. simpl in Hitem.
    destruct Hitem as [Hempty|Hmatches].
    + rewrite export_job_skip, has_matches_false by done.
      cbn [mbind result_bind]. by apply IH.
    + destruct (export_job_spec labels labels_NoDup job_id_fresh
                  extracted_fresh key_present id_present st job_id item
                  Hmatches) as [tmp ->].
      rewrite has_matches_true by done. cbn [mbind result_bind].
      edestruct IH as (st' & -> & Hrefs' & Hframes & Htotal).
      { cbn [objects all_matches_dfs]. apply Forall_app. split.
        - eapply Forall_impl; [exact Hrefs|]. simpl. intros r Hr.
          rewrite length_app. lia.
        - repeat constructor. rewrite length_app. simpl. lia. }
      exists st'. split_and!; [done|done| |].
      * rewrite Hframes. cbn [objects all_matches_dfs map flat_map fst snd].
        rewrite map_app, map_get_old by done. rewrite <- app_assoc. f_equal.
        cbn [map app]. f_equal.
        change (objects st ++ [tmp; exported_frame job_id (matches item)])
          with (objects st ++ [tmp] ++ [exported_frame job_id (matches item)]).
        rewrite app_assoc.
        replace (S (length (objects st))) with (length (objects st ++ [tmp]))
          by (rewrite length_app; simpl; lia).
        apply get_new.
      * rewrite Htotal. cbn [total_matches flat_map fst snd].
        rewrite length_app. unfold len. lia.
Qed.

Lemma exported_frame_rows job_id df :
  matches_of labels df ->
  columns (exported_frame job_id df) = exported_columns labels /\
  Forall (fun row => length row = length (exported_columns labels))
         (data (exported_frame job_id df)).
Proof.
  intros (Hcols & _ & Hrows). unfold exported_frame, exported_rows. simpl.
  rewrite Hcols. split; [done|]. rewrite Forall_map.
  eapply Forall_impl; [exact Hrows|]. simpl. intros row [Hlen _].
  unfold exported_columns. simpl. rewrite !length_app, Hlen. done.
Qed.

Lemma exported_columns_NoDup : NoDup (exported_columns labels).
Proof.
  unfold exported_columns. apply NoDup_cons. split.
  - rewrite elem_of_app, list_elem_of_singleton. intros [?|?]; done.
  - apply NoDup_app. split_and!; [done| |apply NoDup_singleton].
    intros l Hl ->%list_elem_of_singleton. done.
Qed.

Lemma report_rows_nil results :
  matcher_made labels results ->
  report_rows results = [] -> List.filter has_matches results = [].
Proof.
  unfold report_rows. induction 1 as [|[job_id item] results Hitem _ IH];
    [done|]. cbn [List.filter]. simpl in Hitem.
  destruct Hitem as [He|Hm].
  - by rewrite has_matches_false.
  - rewrite has_matches_true by done. simpl.
    destruct Hm as (_ & Hne & _). unfold exported_rows at 1.
    destruct (data (matches item)); done.
Qed.

Lemma report_rows_length results :
  length (report_rows results)
  = length (flat_map (fun item : value * match_result =>
                        data (matches item.2))
                     (List.filter has_matches results)).
Proof.
  unfold report_rows. induction (List.filter has_matches results)
    as [|item items IH]; simpl; [done|].
  rewrite !length_app, IH. unfold exported_rows. by rewrite length_map.
Qed.

(** The exporter on what the matcher made. *)
Lemma export_spec fs results :
  matcher_made labels results ->
  export_to_single_excel fs results
  = Ok (if negb (dir_exists fs) && negb (makedirs_ok fs) then (None, 0)
        else match report_rows results with
             | [] => (None, 0)
             | rows =>
                 if to_excel_ok fs
                 then (Some (mkDataFrame (exported_columns labels) rows),
                       length rows)
                 else (None, 0)
             end).
Proof.
  intros Hmade. unfold export_to_single_excel.
  destruct (negb (dir_exists fs) && negb (makedirs_ok fs)); [done|].
  destruct (export_loop_spec results (mk_export_state [] [] 0) Hmade)
    as (st & -> & _ & Hframes & Htotal); [by constructor|].
  cbn [mbind result_bind]. simpl in Hframes, Htotal.
  destruct (report_rows results) as [|row rows] eqn:Hreport.
  - apply report_rows_nil in Hreport; [|done]. rewrite Hreport in Hframes.
    apply map_eq_nil in Hframes. by rewrite Hframes.
  - assert (List.filter has_matches results <> []) as Hne.
    { intros E. unfold report_rows in Hreport. by rewrite E in Hreport. }
    destruct (all_matches_dfs st) as [|r rs] eqn:Hrefs.
    { symmetry in Hframes. by apply map_eq_nil in Hframes. }
    destruct (to_excel_ok fs); [|done]. do 3 f_equal.
    + rewrite Hframes. rewrite (concat_same_labels (exported_columns labels)).
      * f_equal. rewrite <- Hreport. unfold report_rows.
        clear. induction (List.filter has_matches results) as [|i l IH];
          simpl; [done|]. by rewrite IH.
      * apply exported_columns_NoDup.
      * intros E. by apply map_eq_nil in E.
      * rewrite Forall_map. apply Forall_forall.
        intros item Hitem%list_elem_of_In. apply filter_In in Hitem as [Hin Hhas].
        apply list_elem_of_In in Hin. eapply Forall_forall in Hmade; [|done].
        simpl. apply exported_frame_rows.
        destruct Hmade as [He|?]; [|done]. unfold has_matches in Hhas.
        by rewrite He in Hhas.
    + by rewrite Htotal, <- report_rows_length, Hreport.
Qed.

End export_loop.

Section report.
Variables jobs_df candidates_df : pd.DataFrame.
Hypothesis jobs_wf : wf_table job_columns jobs_df.
Hypothesis candidates_wf : wf_table candidate_columns candidates_df.

Lemma result_of_matches key prefix target :
  matches (result_of candidates_df key prefix target) = pd.empty_DataFrame \/
  matches_of (pd.columns candidates_df)
             (matches (result_of candidates_df key prefix target)).
Proof.
  unfold result_of. simpl.
  pose proof (matching_rows_length _ candidates_wf prefix target) as Hlen.
  assert (Forall (fun row =>
                    has_valid_key (zip (pd.columns candidates_df) row) = true)
                 (matching_rows candidates_df prefix target)) as Hvalid.
  { apply Forall_forall. intros row Hrow%list_elem_of_In.
    apply filter_In in Hrow as [_ Hq]. by eapply qualifies_valid. }
  destruct (matching_rows candidates_df prefix target) as [|row rows];
    [by left|right].
  split_and!; [done|done|]. simpl. apply Forall_forall. intros r Hr.
  eapply Forall_forall in Hlen; [|exact Hr].
  eapply Forall_forall in Hvalid; [|exact Hr]. done.
Qed.

Lemma results_matcher_made results :
  find_matching_candidates_for_all_jobs jobs_df candidates_df = Ok results ->
  matcher_made (pd.columns candidates_df) results.
Proof.
  intros Hfind. apply Forall_forall. intros [job_id data] Hin.
  destruct (entry_spec _ _ jobs_wf candidates_wf _ _ _ Hfind Hin)
    as (p & parts & _ & Hdata). cbn [snd]. rewrite Hdata.
  destruct (result_of_matches (job_key data) p (target_salary data))
    as [He|?]; [left; by rewrite He|by right].
Qed.

Lemma results_empty_count results job_id data :
  find_matching_candidates_for_all_jobs jobs_df candidates_df = Ok results ->
  (job_id, data) ∈ results ->
  pd.empty (matches data) = true <-> count data = 0.
Proof.
  intros Hfind Hin.
  destruct (entry_spec _ _ jobs_wf candidates_wf _ _ _ Hfind Hin)
    as (p & parts & _ & Hdata). rewrite Hdata.
  unfold result_of. cbn [matches count].
  destruct (matching_rows candidates_df p (target_salary data)) eqn:E;
    [done|]. simpl. split; [|done].
  unfold pd.empty. rewrite bool_decide_eq_true. simpl. intros [Hc|?]; [|done].
  destruct candidates_wf as (_ & Hreq & _). rewrite Hc in Hreq.
  apply Forall_cons in Hreq as [Hreq _]. by apply elem_of_nil in Hreq.
Qed.

End report.

Section skipping.






End skipping.



(** The report of a run, for a candidates table that has no column named
    [job_id] or [extracted_salary]: the columns are [job_id], those of the
    candidates table, and [extracted_salary]; a row is a job identifier, a
    matching candidate row, and the ceiling of the candidate's key. *)
Lemma report_of_matcher fs jobs_df candidates_df :
  wf_table job_columns jobs_df ->
  wf_table candidate_columns candidates_df ->
  JOBS_COLUMNS.job_id_col ∉ pd.columns candidates_df ->
  extracted_salary_col ∉ pd.columns candidates_df ->
  exists results,
    find_matching_candidates_for_all_jobs jobs_df candidates_df = Ok results /\
    export_to_single_excel fs results
    = Ok (if negb (dir_exists fs) && negb (makedirs_ok fs) then (None, 0)
          else match report_rows results with
               | [] => (None, 0)
               | rows =>
                   if to_excel_ok fs
                   then (Some (pd.mkDataFrame
                                 (JOBS_COLUMNS.job_id_col
                                  :: pd.columns candidates_df
                                  ++ [extracted_salary_col])
                                 rows),
                         length rows)
                   else (None, 0)
               end) /\
    forall row,
      row ∈ report_rows results ->
      exists job_id data candidate,
        (job_id, data) ∈ results /\
        candidate ∈ pd.data (matches data) /\
        candidate ∈ pd.data candidates_df /\
        row = job_id :: candidate
              ++ [ceiling_cell (pd.columns candidates_df) candidate].
Proof.
  intros Hjobs Hcands Hjob_id Hextracted.
  pose proof (find_spec _ Hcands _ Hjobs) as Hfind.
  eexists. split; [exact Hfind|].
  set (results := pydict.update _ _) in *.
  pose proof (results_matcher_made _ _ Hjobs Hcands _ Hfind) as Hmade.
  pose proof Hcands as (Hnd & Hreq & Hlen).
  apply Forall_cons in Hreq as [Hid Hreq]. apply Forall_cons in Hreq as [Hkey _].
  split.
  - by apply (export_spec (pd.columns candidates_df)).
  - intros row Hrow. unfold report_rows in Hrow.
    apply list_elem_of_In, in_flat_map in Hrow as ([job_id data] & Hitem & Hrow).
    apply filter_In in Hitem as [Hin Hhas]. apply list_elem_of_In in Hin.
    simpl in Hrow. unfold exported_rows in Hrow.
    apply in_map_iff in Hrow as (candidate & <- & Hcand).
    apply list_elem_of_In in Hcand.
    exists job_id, data, candidate. split_and!; [done|done| |].
    + destruct (entry_spec _ _ Hjobs Hcands _ _ _ Hfind Hin)
        as (p & parts & _ & Hdata).
      rewrite Hdata, result_of_data in Hcand.
      unfold matching_rows in Hcand.
      apply list_elem_of_In, filter_In in Hcand as [Hcand _].
      by apply list_elem_of_In.
    + eapply Forall_forall in Hmade; [|exact Hin]. simpl in Hmade.
      destruct Hmade as [He|(Hcols & _)]; [|by rewrite Hcols].
      unfold has_matches in Hhas. simpl in Hhas. by rewrite He in Hhas.
Qed.

(** C1.  On the example of the specification the exported table has four
    columns: [job_id], the two columns of the candidates table, and
    [extracted_salary], which line 167 assigns in the frame that line 162
    appended to [all_matches_dfs]. *)
Theorem export_adds_extracted_salary_column :
  exists results,
    find_matching_candidates_for_all_jobs example.jobs example.candidates
    = Ok results /\
    export_to_single_excel example.disk results
    = Ok (Some (pd.mkDataFrame
                  ["job_id"; "candidate_id"; "composit_key"; "extracted_salary"]
                  [[Text "J1"; Text "1"; Text "12_3_4_2.0"; Float example.two]]),
          1).
Proof. eexists. split; vm_compute; reflexivity. Qed.


(** When the candidates table has a column named [job_id] itself, line 156
    assigns in that column: the job identifier takes the place of the
    candidate's cell and no column is added for it. *)
Lemma candidate_column_job_id_is_replaced :
  exists results,
    find_matching_candidates_for_all_jobs example.jobs
      example.candidates_with_job_id = Ok results /\
    export_to_single_excel example.disk results
    = Ok (Some (pd.mkDataFrame
                  ["job_id"; "candidate_id"; "composit_key"; "extracted_salary"]
                  [[Text "J1"; Text "1"; Text "12_3_4_2.0"; Float example.two]]),
          1).
Proof. eexists. split; vm_compute; reflexivity. Qed.

(** ** Further properties of the code *)



Lemma titled_jobs_wf : wf_table job_columns example.titled_jobs.
Proof. solve_wf. Qed.

Lemma candidates_with_job_id_wf :
  wf_table candidate_columns example.candidates_with_job_id.
Proof. solve_wf. Qed.






Lemma SFleb_nan_l x : SFleb S754_nan x = false.
Proof. done. Qed.







Lemma job_entry_cells candidates_df rows :
  omap (job_entry candidates_df) rows
  = omap (fun cells : value * value =>
            match parse_composite_key cells.2 with
            | Ok (prefix, target, _) =>
                Some (cells.1, result_of candidates_df cells.2 prefix target)
            | Raise _ => None
            end)
         (map job_cells rows).
Proof.
  induction rows as [|row rows IH]; [done|].
  cbn [map omap list_omap]. rewrite IH.
  unfold job_entry at 1, parsed_key, job_cells at 1. cbn [fst snd].
  change CANDIDATES_COLUMNS.composite_key_col
    with JOBS_COLUMNS.composite_key_col.
  by destruct (parse_composite_key _) as [[[p t] parts]|].
Qed.

(** X4.  Of a job record the matcher reads the identifier and the key
    only: jobs tables that agree on these two columns, record by record,
    give the same [results], whatever their other columns hold. *)
Theorem other_job_columns_are_ignored jobs_df jobs_df' candidates_df :
  wf_table job_columns jobs_df ->
  wf_table job_columns jobs_df' ->
  wf_table candidate_columns candidates_df ->
  map job_cells (pd.iterrows jobs_df) = map job_cells (pd.iterrows jobs_df') ->
  exists results,
    find_matching_candidates_for_all_jobs jobs_df candidates_df = Ok results /\
    find_matching_candidates_for_all_jobs jobs_df' candidates_df = Ok results.
Proof.
  intros Hjobs Hjobs' Hcands Hcells. eexists. split; [by apply find_spec|].
  rewrite find_spec by done. by rewrite !job_entry_cells, Hcells.
Qed.

Lemma other_job_columns_are_ignored_witness :
  exists results,
    find_matching_candidates_for_all_jobs example.more_jobs
      example.more_candidates = Ok results /\
    find_matching_candidates_for_all_jobs example.titled_jobs
      example.more_candidates = Ok results.
Proof.
  apply other_job_columns_are_ignored;
    [exact more_jobs_wf|exact titled_jobs_wf|exact more_candidates_wf|].
  vm_compute. reflexivity.
Defined.



(** ** The exporter on any [results] *)

Section export_counts.
Import pd.

Lemma len_setitem df l values :
  length values = len df -> len (setitem df l values) = len df.
Proof.
  intros Hlen. unfold setitem, len in *.
  destruct (index_of l (columns df)); simpl; rewrite length_zip_with; lia.
Qed.

Lemma len_setitem_scalar df l x : len (setitem_scalar df l x) = len df.
Proof. unfold setitem_scalar. apply len_setitem, length_replicate. Qed.

Lemma len_getitem_cols df labels df' :
  getitem_cols df labels = Ok df' -> len df' = len df.
Proof.
  unfold getitem_cols. destruct (positions labels (columns df)); [|done].
  simpl. intros [= <-]. unfold len. simpl. apply length_map.
Qed.

Lemma length_getitem_col df l values :
  getitem_col df l = Ok values -> length values = len df.
Proof.
  unfold getitem_col. destruct (index_of l (columns df)); [|done].
  intros [= <-]. apply length_map.
Qed.

Lemma length_apply f xs ys : apply f xs = Ok ys -> length ys = length xs.
Proof.
  revert ys. induction xs as [|x xs IH]; intros ys; simpl.
  - by intros [= <-].
  - destruct (f x) as [y|]; [|done]. cbn [mbind result_bind].
    destruct (apply f xs) as [ys'|]; [|done]. cbn [mbind result_bind].
    intros [= <-]. simpl. by rewrite (IH ys').
Qed.

Lemma len_concat dfs : len (concat dfs) = sum_list_with len dfs.
Proof.
  unfold concat, len. simpl.
  generalize (foldl add_labels [] (map columns dfs)). intros labels.
  induction dfs as [|df dfs IH]; simpl; [done|].
  rewrite length_app, IH, length_map. unfold iterrows. by rewrite length_map.
Qed.

Lemma not_empty_len df : empty df = false -> 0 < len df.
Proof.
  unfold empty, len. intros H%bool_decide_eq_false.
  destruct (data df); [tauto|simpl; lia].
Qed.

(** One turn of the loop that does not raise: nothing for a job without
    matches, else two new objects, of which the second is appended and has
    as many rows as the matches. *)
Lemma export_job_shape st job_id data st' :
  export_job st (job_id, data) = Ok st' ->
  if empty (matches data) then st' = st
  else exists tmp frame,
      objects st' = objects st ++ [tmp; frame] /\
      all_matches_dfs st' = all_matches_dfs st ++ [S (length (objects st))] /\
      total_matches st' = total_matches st + len (matches data) /\
      len frame = len (matches data).
Proof.
  unfold export_job. destruct (empty (matches data)); [by intros [= <-]|].
  cbn [heap.new]. rewrite update_new, get_new.
  destruct (getitem_cols _ _) as [reordered|] eqn:Hre; [|done].
  cbn [mbind result_bind]. rewrite get_new.
  destruct (getitem_col reordered _) as [keys|] eqn:Hkeys; [|done].
  cbn [mbind result_bind].
  destruct (apply extract_salary keys) as [extracted|] eqn:Hex; [|done].
  cbn [mbind result_bind]. rewrite update_new, get_new.
  destruct (getitem_cols _ preview_cols) as [preview|]; [|done].
  cbn [mbind result_bind]. intros [= <-]. cbn [objects all_matches_dfs total_matches].
  eexists _, _. split_and!; [by rewrite <- app_assoc| |done|].
  - rewrite length_app. simpl. by rewrite Nat.add_1_r.
  - apply len_getitem_cols in Hre. rewrite len_setitem_scalar in Hre.
    apply length_getitem_col in Hkeys. apply length_apply in Hex.
    rewrite len_setitem; congruence.
Qed.

Lemma export_loop_shape results st st' :
  for_each export_job results st = Ok st' ->
  Forall (fun r => r < length (objects st)) (all_matches_dfs st) ->
  Forall (fun r => r < length (objects st')) (all_matches_dfs st') /\
  total_matches st'
  = total_matches st
    + sum_list_with (fun item : value * match_result => len (matches item.2))
                    (List.filter has_matches results) /\
  exists frames,
    map (heap.get (objects st')) (all_matches_dfs st')
    = map (heap.get (objects st)) (all_matches_dfs st) ++ frames /\
    Forall2 (fun (item : value * match_result) frame =>
               len frame = len (matches item.2))
            (List.filter has_matches results) frames.
Proof.
  revert st. induction results as [|[job_id data] results IH]; intros st.
  - simpl. intros [= <-] Hrefs. split_and!; [done|lia|].
    exists []. by rewrite app_nil_r.
  - cbn [for_each List.filter].
    destruct (export_job st (job_id, data)) as [st1|] eqn:Hjob; [|done].
    cbn [mbind result_bind]. apply export_job_shape in Hjob.
    destruct (empty (matches data)) eqn:Hempty.
    + subst st1. rewrite has_matches_false by done. apply IH.
    + assert (has_matches (job_id, data) = true) as ->.
      { unfold has_matches. simpl. by rewrite Hempty. }
      destruct Hjob as (tmp & frame & Hobjects & Hrefs1 & Htotal & Hlen).
      intros Hloop Hrefs.
      destruct (IH st1 Hloop) as (Hrefs' & Htotal' & frames & Hframes & Hall).
      { rewrite Hobjects, Hrefs1. apply Forall_app. split.
        - eapply Forall_impl; [exact Hrefs|]. simpl. intros r Hr.
          rewrite length_app. lia.
        - repeat constructor. rewrite length_app. simpl. lia. }
      split_and!; [done| |].
      * rewrite Htotal', Htotal. simpl. lia.
      * exists (frame :: frames). split; [|by constructor].
        rewrite Hframes, Hobjects, Hrefs1, map_app, map_get_old by done.
        rewrite <- app_assoc. f_equal. cbn [map app]. f_equal.
        change (objects st ++ [tmp; frame]) with (objects st ++ [tmp] ++ [frame]).
        rewrite app_assoc.
        replace (S (length (objects st))) with (length (objects st ++ [tmp]))
          by (rewrite length_app; simpl; lia).
        apply get_new.
Qed.

Lemma sum_len_frames (items : list (value * match_result)) frames :
  Forall2 (fun (item : value * match_result) frame =>
             len frame = len (matches item.2)) items frames ->
  sum_list_with len frames
  = sum_list_with (fun item : value * match_result => len (matches item.2))
                  items.
Proof. induction 1 as [|item frame items frames H _ IH]; simpl; [done|lia]. Qed.

Lemma sum_has_matches_positive (results : list (value * match_result)) :
  List.filter has_matches results <> [] ->
  0 < sum_list_with (fun item : value * match_result => len (matches item.2))
                    (List.filter has_matches results).
Proof.
  destruct (List.filter has_matches results) as [|item items] eqn:E; [done|].
  intros _. assert (In item (List.filter has_matches results)) as Hin.
  { rewrite E. by left. }
  apply filter_In in Hin as [_ Hhas]. unfold has_matches in Hhas.
  apply negb_true_iff, not_empty_len in Hhas. simpl. lia.
Qed.

(** The cases of the exporter once the loop has returned. *)
Lemma export_cases fs results st :
  for_each export_job results (mk_export_state [] [] 0) = Ok st ->
  export_to_single_excel fs results
  = Ok (if (dir_exists fs || makedirs_ok fs) && to_excel_ok fs
           && bool_decide (List.filter has_matches results <> [])
        then (Some (concat (map (heap.get (objects st)) (all_matches_dfs st))),
              sum_list_with
                (fun item : value * match_result => len (matches item.2))
                (List.filter has_matches results))
        else (None, 0)).
Proof.
  intros Hloop. unfold export_to_single_excel. rewrite Hloop.
  cbn [mbind result_bind].
  apply export_loop_shape in Hloop as (_ & Htotal & frames & Hframes & Hall);
    [|by constructor].
  simpl in Htotal, Hframes.
  assert (all_matches_dfs st = [] <-> List.filter has_matches results = [])
    as Hnil.
  { split; intros E.
    - rewrite E in Hframes. simpl in Hframes. subst frames.
      by apply Forall2_nil_inv_r in Hall.
    - rewrite E in Hall. apply Forall2_nil_inv_l in Hall.
      rewrite Hall in Hframes. by apply map_eq_nil in Hframes. }
  destruct (dir_exists fs), (makedirs_ok fs); cbn [negb andb orb]; try done.
  all: destruct (all_matches_dfs st) as [|r rs] eqn:Hrefs;
    [rewrite bool_decide_eq_false_2, andb_false_r;
     [done|intros H; by apply H, Hnil]|].
  all: rewrite bool_decide_eq_true_2, andb_true_r, Htotal
    by (intros E; by apply Hnil in E).
  all: by destruct (to_excel_ok fs).
Qed.

End export_counts.

(** X6.  Whatever [results] holds, when the exporter returns, the count it
    returns is the number of rows of the table it wrote, at least 1, and it
    is 0 when it wrote none; the count is the sum of the sizes of the
    non-empty tables of matches. *)
Theorem exported_count_is_number_of_rows fs results file n :
  export_to_single_excel fs results = Ok (file, n) ->
  match file with
  | Some table =>
      n = pd.len table /\ 0 < n /\
      n = sum_list_with (fun item : value * match_result =>
                           pd.len (matches item.2))
                        (List.filter has_matches results)
  | None => n = 0
  end.
Proof.
  unfold export_to_single_excel.
  destruct (negb (dir_exists fs) && negb (makedirs_ok fs)); [by intros [= <- <-]|].
  destruct (for_each export_job results _) as [st|] eqn:Hloop; [|done].
  cbn [mbind result_bind].
  apply export_loop_shape in Hloop as (_ & Htotal & frames & Hframes & Hall);
    [|by constructor].
  simpl in Htotal, Hframes. rewrite Hframes.
  destruct (all_matches_dfs st) as [|r rs] eqn:Hrefs; [by intros [= <- <-]|].
  destruct (to_excel_ok fs); [|by intros [= <- <-]].
  intros [= <- <-]. rewrite len_concat, (sum_len_frames _ _ Hall).
  split_and!; [done| |done]. rewrite Htotal. apply sum_has_matches_positive.
  intros E. rewrite E in Hall. apply Forall2_nil_inv_l in Hall.
  by rewrite Hall in Hframes.
Qed.

Lemma exported_count_is_number_of_rows_witness :
  3 = pd.len
        (pd.mkDataFrame
           ["job_id"; "candidate_id"; "composit_key"; "extracted_salary"]
           [[Text "J1"; Text "1"; Text "12_3_4_2.0"; Float example.two];
            [Text "J4"; Text "1"; Text "12_3_4_2.0"; Float example.two];
            [Text "J4"; Text "2"; Text "12_3_4_3.5";
             Float example.three_and_a_half]]) /\
  0 < 3 /\
  3 = sum_list_with (fun item : value * match_result => pd.len (matches item.2))
        (List.filter has_matches
           (pydict.update
              (omap (job_entry example.more_candidates)
                    (pd.iterrows example.more_jobs)) [])).
Proof.
  apply (exported_count_is_number_of_rows example.disk
           (pydict.update
              (omap (job_entry example.more_candidates)
                    (pd.iterrows example.more_jobs)) [])
           (Some _) 3).
  vm_compute. reflexivity.
Defined.

(** ** The exporter on the results of the matcher, for any labels *)

Section export_total.
Import pd.

Variable labels : list string.
Hypothesis labels_NoDup : NoDup labels.
Hypothesis key_present : CANDIDATES_COLUMNS.composite_key_col ∈ labels.
Hypothesis id_present : CANDIDATES_COLUMNS.candidate_id_col ∈ labels.

Lemma cell_zip_map (f : string -> value) (ls : list string) l :
  l ∈ ls -> cell (zip ls (map f ls)) l = f l.
Proof.
  unfold cell. induction ls as [|c ls IH]; simpl.
  - by intros ?%elem_of_nil.
  - intros Hl. case_decide as Hc; [by rewrite Hc|].
    apply elem_of_cons in Hl as [->|Hl]; [done|]. by apply IH.
Qed.

Lemma cell_reindex (ls : list string) (s : Series) l :
  l ∈ ls -> cell (zip ls (reindex ls s)) l = cell s l.
Proof. intros Hl. by apply (cell_zip_map (cell s)). Qed.

Lemma cell_insert_other (row : list value) i x l :
  length row = length labels ->
  index_of JOBS_COLUMNS.job_id_col labels = Some i ->
  l ∈ labels -> l <> JOBS_COLUMNS.job_id_col ->
  cell (zip labels (<[i := x]> row)) l = cell (zip labels row) l.
Proof.
  intros Hlen Hi [k Hk]%index_of_elem Hne.
  rewrite (cell_zip labels _ l k), (cell_zip labels row l k);
    [|done|done|by rewrite length_insert|done].
  rewrite list_lookup_insert_ne; [done|]. intros ->.
  apply index_of_Some in Hi as [Hi _]. apply index_of_Some in Hk as [Hk _].
  congruence.
Qed.

Lemma cell_snoc_other (row : list value) l' x l :
  length row = length labels -> l ∈ labels ->
  cell (zip (labels ++ [l']) (row ++ [x])) l = cell (zip labels row) l.
Proof.
  intros Hlen Hl. rewrite zip_snoc by done. unfold cell.
  destruct (getitem_zip_elem labels row l Hlen Hl) as [v Hv].
  by rewrite (getitem_app_l _ _ _ _ Hv), Hv.
Qed.

(** The frame after line 156, whether the label [job_id] was there or
    not. *)
Lemma with_job_id_any rows job_id :
  full_rows labels rows ->
  let df := setitem_scalar (mkDataFrame labels rows)
                           JOBS_COLUMNS.job_id_col job_id in
  JOBS_COLUMNS.job_id_col ∈ columns df /\
  (forall l, l ∈ labels -> l ∈ columns df) /\
  full_rows (columns df) (data df) /\
  forall l, l ∈ labels -> l <> JOBS_COLUMNS.job_id_col ->
            map (fun row => cell (zip (columns df) row) l) (data df)
            = map (fun row => cell (zip labels row) l) rows.
Proof.
  intros Hfull df. subst df. unfold setitem_scalar, setitem, len. simpl.
  destruct (index_of JOBS_COLUMNS.job_id_col labels) as [i|] eqn:Hi; simpl;
    rewrite zip_with_replicate_r_eq by done.
  - split_and!.
    + apply index_of_Some in Hi as [Hi _]. by eapply list_elem_of_lookup_2.
    + done.
    + unfold full_rows. rewrite Forall_fmap. eapply Forall_impl; [exact Hfull|].
      simpl. intros row Hrow. by rewrite length_insert.
    + intros l Hl Hne. rewrite <- list_fmap_compose. apply map_ext_in.
      intros row Hrow%list_elem_of_In. simpl.
      apply cell_insert_other; [|done..].
      by eapply Forall_forall in Hfull.
  - split_and!.
    + rewrite elem_of_app, list_elem_of_singleton. by right.
    + intros l Hl. rewrite elem_of_app. by left.
    + unfold full_rows. rewrite Forall_fmap. eapply Forall_impl; [exact Hfull|].
      simpl. intros row Hrow. rewrite !length_app. simpl. lia.
    + intros l Hl Hne. rewrite <- list_fmap_compose. apply map_ext_in.
      intros row Hrow%list_elem_of_In. simpl.
      apply cell_snoc_other; [|done]. by eapply Forall_forall in Hfull.
Qed.

Lemma elem_of_other_labels (ls : list string) l :
  l ∈ ls -> l <> JOBS_COLUMNS.job_id_col ->
  l ∈ List.filter (fun col => negb (String.eqb col JOBS_COLUMNS.job_id_col)) ls.
Proof.
  intros Hl Hne. apply list_elem_of_In, filter_In.
  split; [by apply list_elem_of_In|].
  apply negb_true_iff. by apply String.eqb_neq.
Qed.

Lemma getitem_cols_Ok df ls :
  Forall (fun l => l ∈ columns df) ls ->
  exists df', getitem_cols df ls = Ok df' /\ columns df' = ls.
Proof.
  intros H. unfold getitem_cols.
  destruct (positions_spec _ _ H) as (ps & -> & _). by eexists.
Qed.

Lemma setitem_columns df l values :
  l ∈ columns (setitem df l values) /\
  forall l', l' ∈ columns df -> l' ∈ columns (setitem df l values).
Proof.
  unfold setitem. destruct (index_of l (columns df)) as [i|] eqn:Hi; simpl.
  - split; [|done]. apply index_of_Some in Hi as [Hi _].
    by eapply list_elem_of_lookup_2.
  - split; [|intros l' Hl']; rewrite elem_of_app; [right|by left].
    by apply list_elem_of_singleton.
Qed.

(** A turn of the loop for a job with matches does not raise. *)
Lemma export_job_total st job_id data :
  matches_of labels (matches data) ->
  exists st', export_job st (job_id, data) = Ok st'.
Proof.
  destruct data as [key target [cols rows] n]. simpl.
  intros (Hcols & Hne & Hrows). simpl in *. subst cols.
  assert (full_rows labels rows) as Hfull.
  { eapply Forall_impl; [exact Hrows|]. by intros row [? _]. }
  assert (Forall (fun row => has_valid_key (zip labels row) = true) rows)
    as Hvalid.
  { eapply Forall_impl; [exact Hrows|]. by intros row [_ ?]. }
  unfold export_job. cbn [matches heap.new].
  rewrite (matches_of_not_empty labels key_present (mkDataFrame labels rows))
    by (split_and!; done).
  rewrite update_new, get_new.
  destruct (with_job_id_any rows job_id Hfull) as (Hjob & Hkeep & Hfull1 & Hcells).
  set (df1 := setitem_scalar (mkDataFrame labels rows)
                             JOBS_COLUMNS.job_id_col job_id) in *.
  set (cols2 := JOBS_COLUMNS.job_id_col :: List.filter _ (columns df1)).
  assert (Forall (fun l => l ∈ columns df1) cols2) as Hcols2.
  { constructor; [done|]. apply Forall_forall.
    intros l Hl%list_elem_of_In. apply filter_In in Hl as [Hl _].
    by apply list_elem_of_In. }
  assert (CANDIDATES_COLUMNS.composite_key_col ∈ cols2) as Hkey2.
  { right. apply elem_of_other_labels; [by apply Hkeep|done]. }
  assert (CANDIDATES_COLUMNS.candidate_id_col ∈ cols2) as Hid2.
  { right. apply elem_of_other_labels; [by apply Hkeep|done]. }
  rewrite getitem_cols_spec by done. cbn [mbind result_bind].
  rewrite get_new, getitem_col_spec; cbn [columns data]; [|done|].
  2:{ rewrite Forall_map. apply Forall_forall. intros row _. simpl.
      unfold reindex. by rewrite length_map. }
  cbn [mbind result_bind]. rewrite map_map.
  erewrite (map_ext _ (fun row => cell (zip (columns df1) row)
                                       CANDIDATES_COLUMNS.composite_key_col));
    [|intros row; by apply cell_reindex].
  rewrite Hcells, extracted_values by done. cbn [mbind result_bind].
  rewrite update_new, get_new.
  match goal with
  | |- context [getitem_cols (setitem ?df ?l ?vs) preview_cols] =>
      destruct (setitem_columns df l vs) as [Hextracted Hkeep2];
      destruct (getitem_cols_Ok (setitem df l vs) preview_cols)
        as (preview & -> & _)
  end.
  - repeat constructor; [apply Hkeep2; by left|by apply Hkeep2..|done].
  - by eexists.
Qed.

Lemma export_loop_total results st :
  matcher_made labels results ->
  exists st', for_each export_job results st = Ok st'.
Proof.
  intros Hmade. revert st.
  induction Hmade as [|[job_id data] results Hitem _ IH]; intros st.
  - by exists st.
  - cbn [for_each]. simpl in Hitem. destruct Hitem as [Hempty|Hmatches].
    + rewrite export_job_skip by done. apply IH.
    + destruct (export_job_total st job_id data Hmatches) as [st1 ->].
      apply IH.
Qed.

Lemma export_total fs results :
  matcher_made labels results ->
  exists file n, export_to_single_excel fs results = Ok (file, n).
Proof.
  intros Hmade. unfold export_to_single_excel.
  destruct (negb (dir_exists fs) && negb (makedirs_ok fs)); [by eexists _, _|].
  destruct (export_loop_total results (mk_export_state [] [] 0) Hmade)
    as [st ->].
  cbn [mbind result_bind].
  destruct (all_matches_dfs st); [by eexists _, _|].
  destruct (to_excel_ok fs); by eexists _, _.
Qed.

End export_total.

(** ** Matcher and exporter together *)

Section pipeline.
Variables jobs_df candidates_df : pd.DataFrame.
Hypothesis jobs_wf : wf_table job_columns jobs_df.
Hypothesis candidates_wf : wf_table candidate_columns candidates_df.
Variable results : list (value * match_result).
Hypothesis results_found :
  find_matching_candidates_for_all_jobs jobs_df candidates_df = Ok results.

Lemma results_counts :
  Forall (fun item : value * match_result =>
            count item.2 = pd.len (matches item.2) /\
            (has_matches item = false <-> count item.2 = 0))
         results.
Proof.
  apply Forall_forall. intros [job_id data] Hin. cbn [snd]. split.
  - destruct (entry_spec _ _ jobs_wf candidates_wf _ _ _ results_found Hin)
      as (p & parts & _ & Hdata).
    unfold pd.len. rewrite Hdata at 2. rewrite result_of_data.
    by rewrite Hdata.
  - rewrite <- (results_empty_count _ _ jobs_wf candidates_wf _ _ _
                  results_found Hin).
    unfold has_matches. simpl. by destruct (pd.empty _).
Qed.

Lemma sum_counts :
  sum_list_with (fun item : value * match_result => count item.2) results
  = sum_list_with (fun item : value * match_result => pd.len (matches item.2))
                  (List.filter has_matches results).
Proof.
  generalize results_counts. generalize results. clear.
  induction 1 as [|item items [Hlen Hzero] _ IH]; [done|].
  cbn [List.filter sum_list_with]. destruct (has_matches item) eqn:Hhas.
  - cbn [sum_list_with]. by rewrite IH, Hlen.
  - destruct Hzero as [Hzero _]. by rewrite IH, Hzero.
Qed.

Lemma some_job_has_matches :
  List.filter has_matches results <> [] <->
  exists job_id data, (job_id, data) ∈ results /\ 0 < count data.
Proof.
  pose proof results_counts as H. split.
  - destruct (List.filter has_matches results) as [|[job_id data] items] eqn:E;
      [done|]. intros _. exists job_id, data.
    assert (In (job_id, data) (List.filter has_matches results)) as Hin.
    { rewrite E. by left. }
    apply filter_In in Hin as [Hin Hhas]. apply list_elem_of_In in Hin.
    split; [done|]. eapply Forall_forall in H as [_ Hzero]; [|exact Hin].
    cbn [snd] in Hzero. destruct (count data); [|lia].
    destruct Hzero as [_ Hzero]. rewrite Hzero in Hhas; done.
  - intros (job_id & data & Hin & Hcount) E.
    assert (In (job_id, data) (List.filter has_matches results)) as Hfil.
    { apply filter_In. split; [by apply list_elem_of_In|].
      eapply Forall_forall in H as [_ Hzero]; [|exact Hin]. cbn [snd] in Hzero.
      destruct (has_matches (job_id, data)); [done|].
      destruct Hzero as [Hzero _]. rewrite Hzero in Hcount; [lia|done]. }
    by rewrite E in Hfil.
Qed.

(** The exporter on the results of a run. *)
Lemma export_of_results fs :
  exists file n,
    export_to_single_excel fs results = Ok (file, n) /\
    n = match file with
        | Some _ =>
            sum_list_with (fun item : value * match_result => count item.2)
                          results
        | None => 0
        end /\
    (is_Some file <->
     (dir_exists fs || makedirs_ok fs) && to_excel_ok fs = true /\
     exists job_id data, (job_id, data) ∈ results /\ 0 < count data).
Proof.
  pose proof candidates_wf as (Hnd & Hreq & _).
  apply Forall_cons in Hreq as [Hid Hreq]. apply Forall_cons in Hreq as [Hkey _].
  pose proof (results_matcher_made _ _ jobs_wf candidates_wf _ results_found)
    as Hmade.
  destruct (export_loop_total _ Hkey Hid results (mk_export_state [] [] 0) Hmade)
    as [st Hloop].
  pose proof (export_cases fs results st Hloop) as Hexport.
  pose proof some_job_has_matches as Hsome.
  destruct ((dir_exists fs || makedirs_ok fs) && to_excel_ok fs);
    cbn [andb] in Hexport; [case_bool_decide as Hfil|]; eexists _, _;
    (split; [exact Hexport|]).
  - split; [by rewrite sum_counts|]. split; [|by eexists].
    intros _. split; [done|]. by apply Hsome.
  - split; [done|]. split; [by intros [? ?]|].
    intros [_ Hpos]. by apply Hsome in Hpos.
  - split; [done|]. split; [by intros [? ?]|]. by intros [? _].
Qed.



End pipeline.

Section summary_facts.
Variable results : list (value * match_result).




End summary_facts.



(** X7.  On the [results] of the matcher the exporter never raises,
    whatever the labels of the candidates table (a column named [job_id]
    or [extracted_salary] included).  It writes a table exactly when the
    output directory exists or can be made, the writing succeeds and some
    job has a match; the number it returns is then the sum of the counts
    of all jobs, and 0 when it writes none. *)
Theorem export_of_matcher_results fs jobs_df candidates_df :
  wf_table job_columns jobs_df ->
  wf_table candidate_columns candidates_df ->
  exists results file n,
    find_matching_candidates_for_all_jobs jobs_df candidates_df = Ok results /\
    export_to_single_excel fs results = Ok (file, n) /\
    n = match file with
        | Some _ =>
            sum_list_with (fun item : value * match_result => count item.2)
                          results
        | None => 0
        end /\
    (is_Some file <->
     (dir_exists fs || makedirs_ok fs) && to_excel_ok fs = true /\
     exists job_id data, (job_id, data) ∈ results /\ 0 < count data).
Proof.
  intros Hjobs Hcands.
  pose proof (find_spec _ Hcands _ Hjobs) as Hfind.
  destruct (export_of_results _ _ Hjobs Hcands _ Hfind fs)
    as (file & n & Hexport & Hn & Hfile).
  by eexists _, file, n.
Qed.

Lemma export_of_matcher_results_witness :
  exists results file n,
    find_matching_candidates_for_all_jobs example.jobs
      example.candidates_with_job_id = Ok results /\
    export_to_single_excel example.disk results = Ok (file, n) /\
    n = match file with
        | Some _ =>
            sum_list_with (fun item : value * match_result => count item.2)
                          results
        | None => 0
        end /\
    (is_Some file <->
     (dir_exists example.disk || makedirs_ok example.disk)
     && to_excel_ok example.disk = true /\
     exists job_id data, (job_id, data) ∈ results /\ 0 < count data).
Proof.
  apply export_of_matcher_results;
    [exact example_jobs_wf|exact candidates_with_job_id_wf].
Defined.



Lemma elem_of_report_rows (results : list (value * match_result)) row :
  row ∈ report_rows results <->
  exists job_id data candidate,
    (job_id, data) ∈ results /\
    has_matches (job_id, data) = true /\
    candidate ∈ pd.data (matches data) /\
    row = job_id :: candidate
          ++ [ceiling_cell (pd.columns (matches data)) candidate].
Proof.
  unfold report_rows. rewrite list_elem_of_In, in_flat_map. split.
  - intros ([job_id data] & Hitem & Hrow).
    apply filter_In in Hitem as [Hin Hhas]. apply list_elem_of_In in Hin.
    cbn [fst snd] in Hrow. unfold exported_rows in Hrow.
    apply in_map_iff in Hrow as (candidate & <- & Hcand).
    apply list_elem_of_In in Hcand. by exists job_id, data, candidate.
  - intros (job_id & data & candidate & Hin & Hhas & Hcand & ->).
    exists (job_id, data). split.
    + apply filter_In. split; [by apply list_elem_of_In|done].
    + cbn [fst snd]. unfold exported_rows. apply in_map_iff.
      exists candidate. split; [done|]. by apply list_elem_of_In.
Qed.

(** X9.  The table of a run, for a candidates table that has no column
    named [job_id] or [extracted_salary].  Its columns are [job_id], the
    columns of the candidates table and [extracted_salary].  Its rows are
    exactly the pairs of a job of [results] and a candidate record whose
    key has the prefix of the job's key and a ceiling at most the job's:
    the job identifier, the cells of the candidate, and that ceiling. *)
Theorem report_rows_are_the_matches fs jobs_df candidates_df :
  wf_table job_columns jobs_df ->
  wf_table candidate_columns candidates_df ->
  JOBS_COLUMNS.job_id_col ∉ pd.columns candidates_df ->
  extracted_salary_col ∉ pd.columns candidates_df ->
  exists results,
    find_matching_candidates_for_all_jobs jobs_df candidates_df = Ok results /\
    forall table n,
      export_to_single_excel fs results = Ok (Some table, n) ->
      pd.columns table
      = JOBS_COLUMNS.job_id_col
        :: pd.columns candidates_df ++ [extracted_salary_col] /\
      forall row,
        row ∈ pd.data table <->
        exists job_id data prefix parts candidate ceiling,
          (job_id, data) ∈ results /\
          parse_composite_key (job_key data)
          = Ok (prefix, target_salary data, parts) /\
          candidate ∈ pd.data candidates_df /\
          parsed_key (zip (pd.columns candidates_df) candidate)
          = Some (prefix, ceiling) /\
          SFleb ceiling (target_salary data) = true /\
          row = job_id :: candidate ++ [Float ceiling].
Proof.
  intros Hjobs Hcands Hjob_id Hextracted.
  pose proof (find_spec _ Hcands _ Hjobs) as Hfind.
  eexists. split; [exact Hfind|].
  set (results := pydict.update _ _) in *.
  pose proof (results_matcher_made _ _ Hjobs Hcands _ Hfind) as Hmade.
  pose proof Hcands as (Hnd & Hreq & Hlen).
  apply Forall_cons in Hreq as [Hid Hreq]. apply Forall_cons in Hreq as [Hkey _].
  intros table n Hexport.
  rewrite (export_spec (pd.columns candidates_df)) in Hexport by done.
  destruct (negb (dir_exists fs) && negb (makedirs_ok fs)); [done|].
  destruct (report_rows results) as [|r rs] eqn:Hreport; [done|].
  destruct (to_excel_ok fs); [|done]. injection Hexport as <- <-.
  split; [done|]. intros row. cbn [pd.data]. rewrite <- Hreport.
  rewrite elem_of_report_rows. split.
  - intros (job_id & data & candidate & Hin & Hhas & Hcand & ->).
    destruct (entry_spec _ _ Hjobs Hcands _ _ _ Hfind Hin)
      as (p & parts & Hparse & Hdata).
    assert (pd.columns (matches data) = pd.columns candidates_df) as Hcols.
    { eapply Forall_forall in Hmade; [|exact Hin]. cbn [snd] in Hmade.
      destruct Hmade as [He|(Hcols & _)]; [|done].
      unfold has_matches in Hhas. cbn [snd] in Hhas. by rewrite He in Hhas. }
    rewrite Hcols. rewrite Hdata, result_of_data in Hcand.
    apply elem_of_matching_rows in Hcand as (Hrow & ceiling & Hkeyed & Hle).
    exists job_id, data, p, parts, candidate, ceiling.
    split_and!; try done. unfold ceiling_cell. by rewrite Hkeyed.
  - intros (job_id & data & p & parts & candidate & ceiling
            & Hin & Hparse & Hrow & Hkeyed & Hle & ->).
    destruct (entry_spec _ _ Hjobs Hcands _ _ _ Hfind Hin)
      as (p' & parts' & Hparse' & Hdata).
    rewrite Hparse in Hparse'. injection Hparse' as <- <-.
    assert (candidate ∈ pd.data (matches data)) as Hcand.
    { rewrite Hdata, result_of_data. apply elem_of_matching_rows.
      split; [done|]. by exists ceiling. }
    assert (matches_of (pd.columns candidates_df) (matches data)) as Hof.
    { eapply Forall_forall in Hmade; [|exact Hin]. cbn [snd] in Hmade.
      destruct Hmade as [He|?]; [|done]. unfold pd.empty in He.
      apply bool_decide_eq_true in He as [He|He].
      - rewrite Hdata in He. unfold result_of in He. cbn [matches] in He.
        rewrite Hdata, result_of_data in Hcand.
        destruct (matching_rows _ _ _); [by apply elem_of_nil in Hcand|].
        simpl in He. rewrite He in Hkey. by apply elem_of_nil in Hkey.
      - rewrite He in Hcand. by apply elem_of_nil in Hcand. }
    exists job_id, data, candidate. split_and!; [done| |done|].
    + by apply (has_matches_true (pd.columns candidates_df)).
    + destruct Hof as (-> & _). unfold ceiling_cell. by rewrite Hkeyed.
Qed.

Lemma report_rows_are_the_matches_witness :
  exists results,
    find_matching_candidates_for_all_jobs example.more_jobs
      example.more_candidates = Ok results /\
    forall table n,
      export_to_single_excel example.disk results = Ok (Some table, n) ->
      pd.columns table
      = JOBS_COLUMNS.job_id_col
        :: pd.columns example.more_candidates ++ [extracted_salary_col] /\
      forall row,
        row ∈ pd.data table <->
        exists job_id data prefix parts candidate ceiling,
          (job_id, data) ∈ results /\
          parse_composite_key (job_key data)
          = Ok (prefix, target_salary data, parts) /\
          candidate ∈ pd.data example.more_candidates /\
          parsed_key (zip (pd.columns example.more_candidates) candidate)
          = Some (prefix, ceiling) /\
          SFleb ceiling (target_salary data) = true /\
          row = job_id :: candidate ++ [Float ceiling].
Proof.
  apply report_rows_are_the_matches;
    [exact more_jobs_wf|exact more_candidates_wf| |].
  - intros H%list_elem_of_In. vm_compute in H. intuition discriminate.
  - intros H%list_elem_of_In. vm_compute in H. intuition discriminate.
Defined.

Section no_valid_candidate.
Variable candidates_df : pd.DataFrame.
Hypothesis none_valid :
  Forall (fun row => has_valid_key row = false) (pd.iterrows candidates_df).




End no_valid_candidate.



(** ** Tables without a column the script reads *)






(** X12.  A jobs table without a column the second loop reads, the
    candidates table being well formed: with no job record the matcher
    returns the empty [results] and [main] stops there; with one, the
    matcher and [main] raise [KeyError] at the first record, for [job_id]
    when that column is missing and for the key column otherwise. *)
Theorem jobs_missing_column_raises fs jobs_df candidates_df :
  wf_table candidate_columns candidates_df ->
  full_rows (pd.columns jobs_df) (pd.data jobs_df) ->
  ~ Forall (fun l => l ∈ pd.columns jobs_df) job_columns ->
  let missing :=
    if bool_decide (JOBS_COLUMNS.job_id_col ∈ pd.columns jobs_df)
    then JOBS_COLUMNS.composite_key_col else JOBS_COLUMNS.job_id_col in
  find_matching_candidates_for_all_jobs jobs_df candidates_df
  = match pd.data jobs_df with
    | [] => Ok []
    | _ :: _ => Raise (KeyError missing)
    end /\
  main (Some jobs_df) (Some candidates_df) fs
  = match pd.data jobs_df with
    | [] => Ok No_results
    | _ :: _ => Raise (KeyError missing)
    end.
Proof.
  intros Hcands Hfull Hmissing missing.
  assert (find_matching_candidates_for_all_jobs jobs_df candidates_df
          = match pd.data jobs_df with
            | [] => Ok []
            | _ :: _ => Raise (KeyError missing)
            end) as Hfind.
  { unfold find_matching_candidates_for_all_jobs.
    destruct (build_spec _ Hcands) as (idx & -> & _).
    cbn [mbind result_bind]. unfold pd.iterrows.
    destruct (pd.data jobs_df) as [|row rows]; [done|].
    apply Forall_cons in Hfull as [Hrow _].
    cbn [map for_each]. unfold match_job, missing. case_bool_decide as Hid.
    - destruct (getitem_zip_elem _ row _ Hrow Hid) as [v ->].
      cbn [mbind result_bind].
      rewrite (getitem_zip_missing _ _ JOBS_COLUMNS.composite_key_col);
        [done|].
      intros Hkey. apply Hmissing. by repeat constructor.
    - by rewrite (getitem_zip_missing _ _ JOBS_COLUMNS.job_id_col) by done. }
  split; [done|]. unfold main. cbn [load_excel_data]. rewrite Hfind.
  by destruct (pd.data jobs_df).
Qed.

Lemma jobs_missing_column_raises_witness :
  find_matching_candidates_for_all_jobs example.keyless_jobs example.candidates
  = Raise (KeyError "composit_key") /\
  main (Some example.keyless_jobs) (Some example.candidates) example.disk
  = Raise (KeyError "composit_key").
Proof.
  apply (jobs_missing_column_raises example.disk example.keyless_jobs
           example.candidates).
  - exact example_candidates_wf.
  - by repeat constructor.
  - intros H. apply Forall_cons in H as [_ H]. apply Forall_cons in H as [H _].
    apply list_elem_of_In in H. vm_compute in H. intuition discriminate.
Defined.

(** ** The report for any labels of the candidates table *)

Section report_cells.
Import pd.

Variable labels : list string.
Hypothesis labels_NoDup : NoDup labels.
Hypothesis key_present : CANDIDATES_COLUMNS.composite_key_col ∈ labels.
Hypothesis id_present : CANDIDATES_COLUMNS.candidate_id_col ∈ labels.

Implicit Types (rows : list (list value)) (row : list value) (job_id : value).

Lemma reindex_cells (ls : list string) (s : Series) :
  reindex ls s = map (cell s) ls.
Proof. done. Qed.

Lemma elem_of_other l :
  l ∈ other_labels labels <-> l ∈ labels /\ l <> JOBS_COLUMNS.job_id_col.
Proof.
  unfold other_labels.
  rewrite list_elem_of_In, filter_In, <- list_elem_of_In, negb_true_iff.
  by rewrite String.eqb_neq.
Qed.

Lemma other_labels_NoDup : NoDup (other_labels labels).
Proof.
  unfold other_labels.
  by apply NoDup_ListNoDup, List.NoDup_filter, NoDup_ListNoDup.
Qed.

Lemma insert_map_label {A} (f : string -> A) (ls : list string) l i x :
  NoDup ls -> index_of l ls = Some i ->
  <[i := x]> (map f ls) = map (fun l' => if decide (l' = l) then x else f l') ls.
Proof.
  revert i. induction ls as [|c ls IH]; intros i Hnd; simpl; [done|].
  apply NoDup_cons in Hnd as [Hc Hnd]. case_decide as Hcl.
  - subst c. intros [= <-]. simpl. f_equal. apply map_ext_in.
    intros l' Hl'%list_elem_of_In. rewrite decide_False; [done|].
    by intros ->.
  - destruct (index_of l ls) as [j|] eqn:E; [|done]. intros [= <-]. simpl.
    f_equal. by apply IH.
Qed.

Lemma report_cell_job_id job_id row :
  report_cell labels job_id row JOBS_COLUMNS.job_id_col = job_id.
Proof. done. Qed.

Lemma report_cell_extracted job_id row :
  report_cell labels job_id row extracted_salary_col = ceiling_cell labels row.
Proof. done. Qed.

Lemma report_cell_other job_id row l :
  l ∈ other_labels labels ->
  report_cell labels job_id row l
  = if decide (l = extracted_salary_col) then ceiling_cell labels row
    else cell (zip labels row) l.
Proof.
  intros [_ Hne]%elem_of_other. unfold report_cell.
  case_decide; [done|]. by rewrite decide_False.
Qed.

(** The frame of line 160: [job_id] first, then the other columns. *)
Lemma reordered_frame rows job_id :
  full_rows labels rows ->
  let df := setitem_scalar (mkDataFrame labels rows)
                           JOBS_COLUMNS.job_id_col job_id in
  getitem_cols df
    (JOBS_COLUMNS.job_id_col
     :: List.filter (fun col => negb (String.eqb col JOBS_COLUMNS.job_id_col))
          (columns df))
  = Ok (mkDataFrame (JOBS_COLUMNS.job_id_col :: other_labels labels)
          (map (fun row =>
                  job_id :: map (cell (zip labels row)) (other_labels labels))
               rows)).
Proof.
  intros Hfull df. subst df. unfold setitem_scalar, setitem, len.
  cbn [columns data].
  destruct (index_of JOBS_COLUMNS.job_id_col labels) as [i|] eqn:Hi;
    rewrite zip_with_replicate_r_eq by done; cbn [columns].
  - fold (other_labels labels). rewrite getitem_cols_spec; cbn [columns data].
    + do 2 f_equal. rewrite map_map. apply map_ext_in.
      intros row Hrow%list_elem_of_In. eapply Forall_forall in Hfull; [|done].
      rewrite reindex_cells. cbn [map flip]. f_equal.
      * rewrite (cell_zip labels _ _ i) by (by rewrite ?length_insert).
        rewrite list_lookup_insert_eq; [done|].
        apply index_of_Some in Hi as [_ Hi]. by rewrite Hfull.
      * apply map_ext_in. intros l [Hl Hne]%list_elem_of_In%elem_of_other.
        by apply cell_insert_other.
    + constructor.
      * apply index_of_Some in Hi as [Hi _]. by eapply list_elem_of_lookup_2.
      * apply Forall_forall. by intros l [Hl _]%elem_of_other.
    + rewrite Forall_map. eapply Forall_impl; [exact Hfull|]. simpl.
      intros row Hrow. by rewrite length_insert.
  - apply index_of_None in Hi. rewrite List.filter_app. cbn [List.filter].
    rewrite String.eqb_refl. cbn [negb]. rewrite app_nil_r.
    fold (other_labels labels). rewrite getitem_cols_spec; cbn [columns data].
    + do 2 f_equal. rewrite map_map. apply map_ext_in.
      intros row Hrow%list_elem_of_In. eapply Forall_forall in Hfull; [|done].
      rewrite reindex_cells. cbn [map flip]. f_equal.
      * rewrite zip_snoc by done. unfold cell.
        rewrite getitem_app_r; [done|]. rewrite fst_zip by lia. done.
      * apply map_ext_in. intros l [Hl Hne]%list_elem_of_In%elem_of_other.
        by apply cell_snoc_other.
    + constructor.
      * rewrite elem_of_app, list_elem_of_singleton. by right.
      * apply Forall_forall. intros l [Hl _]%elem_of_other.
        rewrite elem_of_app. by left.
    + rewrite Forall_map. eapply Forall_impl; [exact Hfull|]. simpl.
      intros row Hrow. rewrite !length_app. simpl. lia.
Qed.

Lemma key_other : CANDIDATES_COLUMNS.composite_key_col ∈ other_labels labels.
Proof. by apply elem_of_other. Qed.

Lemma id_other : CANDIDATES_COLUMNS.candidate_id_col ∈ other_labels labels.
Proof. by apply elem_of_other. Qed.

(** The key column of the reordered frame is that of the matches. *)
Lemma reordered_keys rows job_id :
  getitem_col
    (mkDataFrame (JOBS_COLUMNS.job_id_col :: other_labels labels)
       (map (fun row =>
               job_id :: map (cell (zip labels row)) (other_labels labels))
            rows))
    CANDIDATES_COLUMNS.composite_key_col
  = Ok (map (fun row => cell (zip labels row)
                             CANDIDATES_COLUMNS.composite_key_col) rows).
Proof.
  rewrite getitem_col_spec; cbn [columns data].
  - f_equal. rewrite map_map. apply map_ext. intros row.
    unfold cell at 1. cbn [zip zip_with Series_getitem].
    rewrite decide_False by done.
    apply (cell_zip_map (cell (zip labels row))), key_other.
  - right. apply key_other.
  - rewrite Forall_map. apply Forall_forall. intros row _. simpl.
    by rewrite length_map.
Qed.

(** The frame after line 167, which [pd.concat] reads. *)
Lemma with_extracted_any rows job_id :
  setitem
    (mkDataFrame (JOBS_COLUMNS.job_id_col :: other_labels labels)
       (map (fun row =>
               job_id :: map (cell (zip labels row)) (other_labels labels))
            rows))
    extracted_salary_col (map (ceiling_cell labels) rows)
  = report_frame labels job_id (mkDataFrame labels rows).
Proof.
  unfold setitem, report_frame, report_labels. cbn [columns data index_of].
  rewrite decide_False by done.
  destruct (index_of extracted_salary_col (other_labels labels)) as [j|] eqn:Hj;
    cbn [fmap option_fmap option_map];
    rewrite zip_with_fmap_l, zip_with_fmap_r, zip_with_diag.
  - rewrite decide_True
      by (apply index_of_Some in Hj as [Hj _]; by eapply list_elem_of_lookup_2).
    f_equal. apply map_ext. intros row. cbn [map].
    rewrite report_cell_job_id. change (<[S j := ?x]> (?a :: ?l))
      with (a :: <[j := x]> l). f_equal.
    rewrite (insert_map_label _ _ extracted_salary_col)
      by (done || apply other_labels_NoDup).
    apply map_ext_in. intros l Hl%list_elem_of_In.
    by rewrite report_cell_other.
  - apply index_of_None in Hj. rewrite decide_False by done.
    f_equal. apply map_ext. intros row. cbn [map app].
    rewrite report_cell_job_id, map_app. cbn [map].
    rewrite report_cell_extracted. do 2 f_equal.
    apply map_ext_in. intros l Hl%list_elem_of_In.
    rewrite report_cell_other by done. rewrite decide_False; [done|].
    by intros ->.
Qed.

Lemma report_labels_NoDup : NoDup (report_labels labels).
Proof.
  unfold report_labels. apply NoDup_cons.
  assert (JOBS_COLUMNS.job_id_col ∉ other_labels labels) as Hjob.
  { by intros [_ ?]%elem_of_other. }
  pose proof other_labels_NoDup as Hnd.
  case_decide as Hex; [done|]. split.
  - rewrite elem_of_app, list_elem_of_singleton. by intros [?|?].
  - apply NoDup_app. split_and!; [done| |apply NoDup_singleton].
    by intros l Hl ->%list_elem_of_singleton.
Qed.

Lemma report_labels_preview :
  Forall (fun l => l ∈ report_labels labels) preview_cols.
Proof.
  pose proof key_other as Hkey. pose proof id_other as Hid.
  unfold report_labels, preview_cols.
  case_decide as Hex; repeat constructor;
    rewrite ?elem_of_cons, ?elem_of_app, ?list_elem_of_singleton; auto.
Qed.

(** One turn of the loop for a job with matches. *)
Lemma export_job_any st job_id data :
  matches_of labels (matches data) ->
  exists tmp,
    export_job st (job_id, data)
    = Ok (mk_export_state
            (objects st ++ [tmp; report_frame labels job_id (matches data)])
            (all_matches_dfs st ++ [S (length (objects st))])
            (total_matches st + len (matches data))).
Proof.
  destruct data as [key target [cols rows] n]. simpl.
  intros (Hcols & Hne & Hrows). simpl in *. subst cols.
  assert (full_rows labels rows) as Hfull.
  { eapply Forall_impl; [exact Hrows|]. by intros row [? _]. }
  assert (Forall (fun row => has_valid_key (zip labels row) = true) rows)
    as Hvalid.
  { eapply Forall_impl; [exact Hrows|]. by intros row [_ ?]. }
  eexists. unfold export_job. cbn [matches heap.new].
  rewrite (matches_of_not_empty labels key_present (mkDataFrame labels rows))
    by (split_and!; done).
  rewrite update_new, get_new.
  rewrite (reordered_frame rows job_id Hfull). cbn [mbind result_bind].
  rewrite get_new, reordered_keys. cbn [mbind result_bind].
  rewrite extracted_values by done. cbn [mbind result_bind].
  rewrite update_new, get_new, with_extracted_any.
  destruct (getitem_cols_Ok (report_frame labels job_id (mkDataFrame labels rows))
              preview_cols report_labels_preview) as (preview & -> & _).
  cbn [mbind result_bind]. rewrite length_app, <- app_assoc. simpl.
  by rewrite Nat.add_1_r.
Qed.

Lemma export_loop_any results st :
  matcher_made labels results ->
  Forall (fun r => r < length (objects st)) (all_matches_dfs st) ->
  exists st',
    for_each export_job results st = Ok st' /\
    Forall (fun r => r < length (objects st')) (all_matches_dfs st') /\
    map (heap.get (objects st')) (all_matches_dfs st')
    = map (heap.get (objects st)) (all_matches_dfs st)
      ++ map (fun item => report_frame labels item.1 (matches item.2))
             (List.filter has_matches results).
Proof.
  intros Hmade. revert st.
  induction Hmade as [|[job_id item] results Hitem _ IH]; intros st Hrefs.
  - exists st. simpl. by rewrite app_nil_r.
  - cbn [for_each List.filter]. simpl in Hitem.
    destruct Hitem as [Hempty|Hmatches].
    + rewrite export_job_skip, has_matches_false by done.
      cbn [mbind result_bind]. by apply IH.
    + destruct (export_job_any st job_id item Hmatches) as [tmp ->].
      rewrite (has_matches_true labels key_present) by done.
      cbn [mbind result_bind].
      edestruct IH as (st' & -> & Hrefs' & Hframes).
      { cbn [objects all_matches_dfs]. apply Forall_app. split.
        - eapply Forall_impl; [exact Hrefs|]. simpl. intros r Hr.
          rewrite length_app. lia.
        - repeat constructor. rewrite length_app. simpl. lia. }
      exists st'. split_and!; [done|done|].
      rewrite Hframes. cbn [objects all_matches_dfs map fst snd].
      rewrite map_app, map_get_old by done. rewrite <- app_assoc. f_equal.
      cbn [map app]. f_equal.
      change (objects st ++ [tmp; report_frame labels job_id (matches item)])
        with (objects st ++ [tmp] ++ [report_frame labels job_id (matches item)]).
      rewrite app_assoc.
      replace (S (length (objects st))) with (length (objects st ++ [tmp]))
        by (rewrite length_app; simpl; lia).
      apply get_new.
Qed.

(** The exporter on what the matcher made, for any labels. *)
Lemma export_any fs results :
  matcher_made labels results ->
  export_to_single_excel fs results
  = Ok (if (dir_exists fs || makedirs_ok fs) && to_excel_ok fs
           && bool_decide (List.filter has_matches results <> [])
        then (Some (mkDataFrame (report_labels labels)
                      (flat_map
                         (fun item =>
                            data (report_frame labels item.1 (matches item.2)))
                         (List.filter has_matches results))),
              sum_list_with
                (fun item : value * match_result => len (matches item.2))
                (List.filter has_matches results))
        else (None, 0)).
Proof.
  intros Hmade.
  destruct (export_loop_any results (mk_export_state [] [] 0) Hmade)
    as (st & Hloop & _ & Hframes); [by constructor|].
  rewrite (export_cases fs results st Hloop).
  destruct (_ && _) eqn:Hcond; [|done]. do 3 f_equal.
  apply andb_true_iff in Hcond as [_ Hne%bool_decide_eq_true].
  rewrite Hframes. cbn [objects all_matches_dfs map app].
  rewrite (concat_same_labels (report_labels labels)).
  - f_equal. clear. induction (List.filter has_matches results) as [|i l IH];
      simpl; [done|]. by rewrite IH.
  - apply report_labels_NoDup.
  - intros E. by apply map_eq_nil in E.
  - rewrite Forall_map. apply Forall_forall. intros item _.
    unfold report_frame. cbn [columns data]. split; [done|].
    rewrite Forall_map. apply Forall_forall. intros row _.
    by rewrite length_map.
Qed.

End report_cells.

Lemma index_of_lookup (ls : list string) i l :
  NoDup ls -> ls !! i = Some l -> pd.index_of l ls = Some i.
Proof.
  revert i. induction ls as [|c ls IH]; intros i Hnd; [done|].
  apply NoDup_cons in Hnd as [Hc Hnd]. destruct i as [|i]; simpl.
  - intros [= ->]. by rewrite decide_True.
  - intros Hl. rewrite decide_False.
    + by rewrite (IH i).
    + intros ->. apply Hc. by eapply list_elem_of_lookup_2.
Qed.

(** A full row is determined by its cells under the labels. *)
Lemma cells_determine_row (ls : list string) (row row' : list value) :
  NoDup ls -> length row = length ls -> length row' = length ls ->
  (forall l, l ∈ ls -> cell (zip ls row) l = cell (zip ls row') l) ->
  row = row'.
Proof.
  intros Hnd Hrow Hrow' Hcells. apply list_eq. intros i.
  destruct (ls !! i) as [l|] eqn:Hl.
  - pose proof (index_of_lookup _ _ _ Hnd Hl) as Hi.
    specialize (Hcells l ltac:(by eapply list_elem_of_lookup_2)).
    rewrite (cell_zip ls row l i), (cell_zip ls row' l i) in Hcells by done.
    apply lookup_lt_Some in Hl.
    destruct (lookup_lt_is_Some_2 row i) as [v Hv]; [lia|].
    destruct (lookup_lt_is_Some_2 row' i) as [v' Hv']; [lia|].
    rewrite Hv, Hv' in *. simpl in Hcells. by subst.
  - apply lookup_ge_None in Hl.
    rewrite !(proj2 (lookup_ge_None _ _)) by lia. done.
Qed.

Lemma elem_of_report_frames labels (items : list (value * match_result)) row :
  row ∈ flat_map (fun item => pd.data (report_frame labels item.1 (matches item.2)))
                 items <->
  exists job_id data candidate,
    (job_id, data) ∈ items /\ candidate ∈ pd.data (matches data) /\
    row = map (report_cell labels job_id candidate) (report_labels labels).
Proof.
  rewrite list_elem_of_In, in_flat_map. split.
  - intros ([job_id data] & Hitem%list_elem_of_In & Hrow).
    cbn [fst snd report_frame pd.data] in Hrow.
    apply in_map_iff in Hrow as (candidate & <- & Hcand%list_elem_of_In).
    by exists job_id, data, candidate.
  - intros (job_id & data & candidate & Hin & Hcand & ->).
    exists (job_id, data). split; [by apply list_elem_of_In|].
    cbn [fst snd report_frame pd.data]. apply in_map_iff.
    exists candidate. split; [done|]. by apply list_elem_of_In.
Qed.

(** X13.  The table of a run whatever the labels of the candidates
    table.  Its columns are [job_id], the columns of the candidates table
    other than [job_id], and [extracted_salary] unless the candidates
    table has such a column.  A row stands for a job and one of its
    matches: it has the identifier of the job under [job_id] and the
    ceiling of the candidate's key under [extracted_salary], whatever the
    candidate record had under these labels, and the cell of the candidate
    under every other label. *)
Theorem report_cells_for_any_labels fs jobs_df candidates_df :
  wf_table job_columns jobs_df ->
  wf_table candidate_columns candidates_df ->
  exists results,
    find_matching_candidates_for_all_jobs jobs_df candidates_df = Ok results /\
    forall table n,
      export_to_single_excel fs results = Ok (Some table, n) ->
      pd.columns table = report_labels (pd.columns candidates_df) /\
      forall row,
        row ∈ pd.data table <->
        exists job_id data candidate,
          (job_id, data) ∈ results /\
          candidate ∈ pd.data (matches data) /\
          length row = length (pd.columns table) /\
          cell (zip (pd.columns table) row) JOBS_COLUMNS.job_id_col = job_id /\
          cell (zip (pd.columns table) row) extracted_salary_col
          = ceiling_cell (pd.columns candidates_df) candidate /\
          forall l,
            l ∈ pd.columns candidates_df ->
            l <> JOBS_COLUMNS.job_id_col -> l <> extracted_salary_col ->
            cell (zip (pd.columns table) row) l
            = cell (zip (pd.columns candidates_df) candidate) l.
Proof.
  intros Hjobs Hcands.
  pose proof (find_spec _ Hcands _ Hjobs) as Hfind.
  eexists. split; [exact Hfind|].
  set (results := pydict.update _ _) in *.
  pose proof (results_matcher_made _ _ Hjobs Hcands _ Hfind) as Hmade.
  pose proof Hcands as (Hnd & Hreq & Hlen).
  apply Forall_cons in Hreq as [Hid Hreq]. apply Forall_cons in Hreq as [Hkey _].
  set (labels := pd.columns candidates_df) in *.
  intros table n Hexport.
  rewrite (export_any labels Hnd Hkey Hid fs results Hmade) in Hexport.
  destruct (_ && _); [|done]. injection Hexport as <- <-.
  split; [done|]. intros row.
  change (pd.data (pd.mkDataFrame ?c ?d)) with d.
  change (pd.columns (pd.mkDataFrame ?c ?d)) with c.
  etrans; [exact (elem_of_report_frames labels _ row)|].
  assert (forall job_id candidate l,
             l ∈ report_labels labels ->
             cell (zip (report_labels labels)
                       (map (report_cell labels job_id candidate)
                            (report_labels labels))) l
             = report_cell labels job_id candidate l) as Hcell.
  { intros job_id candidate l Hl. by apply cell_zip_map. }
  assert (JOBS_COLUMNS.job_id_col ∈ report_labels labels) as Hjob_in.
  { by left. }
  assert (extracted_salary_col ∈ report_labels labels) as Hex_in.
  { unfold report_labels. right. case_decide; [done|].
    rewrite elem_of_app, list_elem_of_singleton. by right. }
  assert (forall l, l ∈ labels -> l <> JOBS_COLUMNS.job_id_col ->
                    l ∈ report_labels labels) as Hother_in.
  { intros l Hl Hne. unfold report_labels. right.
    assert (l ∈ other_labels labels) by by apply elem_of_other.
    case_decide; [done|]. rewrite elem_of_app. by left. }
  split.
  - intros (job_id & data & candidate & Hin & Hcand & ->).
    apply list_elem_of_In, filter_In in Hin as [Hin%list_elem_of_In _].
    exists job_id, data, candidate.
    split_and!; [done|done|by rewrite length_map|by rewrite Hcell..|].
    intros l Hl Hjob Hex. rewrite Hcell by auto. unfold report_cell.
    by rewrite !decide_False by done.
  - intros (job_id & data & candidate & Hin & Hcand & Hlength & Hjob & Hex
            & Hother).
    exists job_id, data, candidate. split_and!; [|done|].
    + apply list_elem_of_In, filter_In. split; [by apply list_elem_of_In|].
      unfold has_matches. cbn [snd]. apply negb_true_iff.
      eapply Forall_forall in Hmade; [|exact Hin]. cbn [snd] in Hmade.
      destruct Hmade as [He|Hof];
        [|by apply (matches_of_not_empty labels Hkey)].
      apply bool_decide_eq_true in He as [He|He].
      * exfalso. destruct (entry_spec _ _ Hjobs Hcands _ _ _ Hfind Hin)
          as (p & parts & _ & Hdata).
        rewrite Hdata in He, Hcand. rewrite result_of_data in Hcand.
        unfold result_of in He. cbn [matches] in He.
        destruct (matching_rows _ _ _); [by apply elem_of_nil in Hcand|].
        cbn [pd.columns] in He. fold labels in He. rewrite He in Hkey.
        by apply elem_of_nil in Hkey.
      * rewrite He in Hcand. by apply elem_of_nil in Hcand.
    + apply (cells_determine_row (report_labels labels));
        [by apply report_labels_NoDup|done|by rewrite length_map|].
      intros l Hl. rewrite Hcell by done.
      destruct (decide (l = extracted_salary_col)) as [->|Hne_ex];
        [by rewrite Hex|].
      destruct (decide (l = JOBS_COLUMNS.job_id_col)) as [->|Hne_job];
        [by rewrite Hjob|].
      unfold report_cell. rewrite !decide_False by done. apply Hother; [|done..].
      unfold report_labels in Hl. apply elem_of_cons in Hl as [?|Hl]; [done|].
      case_decide.
      * by apply elem_of_other in Hl as [? _].
      * apply elem_of_app in Hl as [Hl|Hl%list_elem_of_singleton]; [|done].
        by apply elem_of_other in Hl as [? _].
Qed.

Lemma report_cells_for_any_labels_witness :
  exists results,
    find_matching_candidates_for_all_jobs example.jobs
      example.candidates_with_job_id = Ok results /\
    forall table n,
      export_to_single_excel example.disk results = Ok (Some table, n) ->
      pd.columns table
      = report_labels (pd.columns example.candidates_with_job_id) /\
      forall row,
        row ∈ pd.data table <->
        exists job_id data candidate,
          (job_id, data) ∈ results /\
          candidate ∈ pd.data (matches data) /\
          length row = length (pd.columns table) /\
          cell (zip (pd.columns table) row) JOBS_COLUMNS.job_id_col = job_id /\
          cell (zip (pd.columns table) row) extracted_salary_col
          = ceiling_cell (pd.columns example.candidates_with_job_id)
                         candidate /\
          forall l,
            l ∈ pd.columns example.candidates_with_job_id ->
            l <> JOBS_COLUMNS.job_id_col -> l <> extracted_salary_col ->
            cell (zip (pd.columns table) row) l
            = cell (zip (pd.columns example.candidates_with_job_id) candidate)
                   l.
Proof.
  apply report_cells_for_any_labels;
    [exact example_jobs_wf|exact candidates_with_job_id_wf].
Defined.
